(** * Q-Skill-8D: the 8D report review engine

    A shallow embedding of the core of [q_skill_8d/server.py]: the evidence
    snippet selector ([extract_evidence_snippet]), the section segmenter
    ([extract_8d_sections]), the six rule evaluators ([review_d3] ..
    [review_d8]) and the verdict computed by [review_8d_report].

    Python [str] values are lists of Unicode code points.  Dictionaries with
    literal ASCII keys (section labels, category names) are keyed by [string];
    comments built from ASCII literals are kept as [string] as well. *)

From stdpp Require Import gmap strings list fin_maps.
From Stdlib Require Import ZArith NArith Ascii Lia.

Local Open Scope N_scope.

(** ** Python strings *)

Abbreviation str := (list N).

(** Decoding of the UTF-8 bytes of a source literal into code points, so that
    the keyword tables below can be written as they are in the program. *)
Fixpoint utf8_bytes (s : string) : list N :=
  match s with
  | EmptyString => []
  | String a s' => N_of_ascii a :: utf8_bytes s'
  end.

Fixpoint utf8_decode (bs : list N) : str :=
  match bs with
  | [] => []
  | b0 :: t0 =>
    if b0 <? 128 then b0 :: utf8_decode t0
    else
      match t0 with
      | [] => []
      | b1 :: t1 =>
        if b0 <? 224 then ((b0 - 192) * 64 + (b1 - 128)) :: utf8_decode t1
        else
          match t1 with
          | [] => []
          | b2 :: t2 =>
            if b0 <? 240
            then ((b0 - 224) * 4096 + (b1 - 128) * 64 + (b2 - 128)) :: utf8_decode t2
            else
              match t2 with
              | [] => []
              | b3 :: t3 =>
                ((b0 - 240) * 262144 + (b1 - 128) * 4096 + (b2 - 128) * 64 + (b3 - 128))
                  :: utf8_decode t3
              end
          end
      end
  end.

Definition py (s : string) : str := utf8_decode (utf8_bytes s).

(** [str.isspace] for one character; also the class [\s] of [re] on [str]
    patterns. *)
Definition isspace (c : N) : bool :=
  ((9 <=? c) && (c <=? 13)) || ((28 <=? c) && (c <=? 32)) || (c =? 133) || (c =? 160)
  || (c =? 5760) || ((8192 <=? c) && (c <=? 8202)) || (c =? 8232) || (c =? 8233)
  || (c =? 8239) || (c =? 8287) || (c =? 12288).

(** Line boundaries of [str.splitlines]. *)
Definition is_linebreak (c : N) : bool :=
  ((10 <=? c) && (c <=? 13)) || ((28 <=? c) && (c <=? 30)) || (c =? 133)
  || (c =? 8232) || (c =? 8233).

Fixpoint lstrip (s : str) : str :=
  match s with
  | [] => []
  | c :: t => if isspace c then lstrip t else s
  end.

Definition rstrip (s : str) : str := reverse (lstrip (reverse s)).

Definition strip (s : str) : str := rstrip (lstrip s).

(** [str.splitlines()]: [after_cr] records that the previous character was a
    carriage return that closed a line, so that a line feed directly after it
    belongs to the same boundary. *)
Fixpoint splitlines_from (after_cr : bool) (s : str) : list str :=
  match s with
  | [] => []
  | c :: t =>
    if after_cr && (c =? 10) then splitlines_from false t
    else if is_linebreak c then [] :: splitlines_from (c =? 13) t
    else
      match splitlines_from false t with
      | [] => [[c]]
      | l :: ls => (c :: l) :: ls
      end
  end.

Definition splitlines (s : str) : list str := splitlines_from false s.

(** [re.sub(r"\s+", " ", s)]: every maximal run of whitespace becomes one
    space. *)
Fixpoint collapse_from (in_run : bool) (s : str) : str :=
  match s with
  | [] => []
  | c :: t =>
    if isspace c then (if in_run then collapse_from true t else 32 :: collapse_from true t)
    else c :: collapse_from false t
  end.

Definition collapse_ws (s : str) : str := collapse_from false s.

Fixpoint startswith (s p : str) {struct p} : bool :=
  match p, s with
  | [], _ => true
  | _ :: _, [] => false
  | a :: p', b :: s' => (a =? b) && startswith s' p'
  end.

(** [needle in hay]. *)
Fixpoint contains (needle hay : str) : bool :=
  startswith hay needle ||
  match hay with
  | [] => false
  | _ :: t => contains needle t
  end.

Definition endswith (s p : str) : bool := startswith (reverse s) (reverse p).

(** [s[:n]] for a possibly negative bound. *)
Definition slice_to (n : Z) (s : str) : str :=
  if (n <? 0)%Z then take (Z.to_nat (Z.of_nat (length s) + n)) s
  else take (Z.to_nat n) s.

(** [sep.join(parts)] on ASCII text. *)
Definition join (sep : string) (parts : list string) : string := String.concat sep parts.

(** ** The Unicode tables

    [str.lower] and the decimal-digit class [\d] depend on the Unicode
    character database, which is not part of the program.  They are taken as
    an interface; the laws recorded are the ASCII facts the keyword tables
    rely on. *)
Definition ascii_lower_char (c : N) : N :=
  if (65 <=? c) && (c <=? 90) then c + 32 else c.

Definition ascii_digit (c : N) : bool := (48 <=? c) && (c <=? 57).

Class Unicode := {
  lower : str -> str;
  isdecimal : N -> bool;
  lower_ascii : forall s, Forall (fun c => c < 128) s -> lower s = map ascii_lower_char s;
  isdecimal_ascii : forall c, c < 128 -> isdecimal c = ascii_digit c
}.

(** The tables restricted to ASCII letters and digits: they agree with
    Python's on every text whose cased letters and digits are ASCII (CJK
    ideographs and punctuation have no case). *)
Definition ascii_unicode : Unicode :=
  {| lower := map ascii_lower_char;
     isdecimal := ascii_digit;
     lower_ascii := fun s _ => eq_refl;
     isdecimal_ascii := fun c _ => eq_refl |}.

(** ** The regular expressions of the program

    The fragment of [re] that the patterns of the program are written in: one
    character items (literals, classes, escapes, the dot), sequence,
    alternation, greedy and lazy repetition of a one-character item, one
    capturing group, positive lookahead and [$].  The matcher backtracks in the
    order [re] does, so that the first match found is the one [re] reports. *)
Inductive regex :=
| Chr (p : N -> bool)
| Eps
| Cat (r1 r2 : regex)
| Alt (r1 r2 : regex)
| Star (greedy : bool) (p : N -> bool)
| Group (r : regex)
| Ahead (r : regex)
| Eos.

(** What is left of the subject, and the text of group 1 if it has been
    closed. *)
Record mstate := MState { rest : str; grp : option str }.

Fixpoint rmatch (r : regex) (k : mstate -> option mstate) (st : mstate) : option mstate :=
  match r with
  | Chr p =>
    match rest st with
    | c :: t => if p c then k (MState t (grp st)) else None
    | [] => None
    end
  | Eps => k st
  | Cat a b => rmatch a (rmatch b k) st
  | Alt a b =>
    match rmatch a k st with
    | Some m => Some m
    | None => rmatch b k st
    end
  | Star greedy p =>
    (fix loop (s : str) : option mstate :=
       match s with
       | c :: t =>
         if p c then
           if greedy then
             match loop t with
             | Some m => Some m
             | None => k (MState s (grp st))
             end
           else
             match k (MState s (grp st)) with
             | Some m => Some m
             | None => loop t
             end
         else k (MState s (grp st))
       | [] => k (MState [] (grp st))
       end) (rest st)
  | Group a =>
    rmatch a (fun st' =>
      k (MState (rest st')
                (Some (take (length (rest st) - length (rest st')) (rest st))))) st
  | Ahead a =>
    match rmatch a Some st with
    | Some st' => k (MState (rest st) (grp st'))
    | None => None
    end
  | Eos =>
    match rest st with
    | [] => k st
    | [c] => if c =? 10 then k st else None
    | _ => None
    end
  end.

Definition Plus (p : N -> bool) : regex := Cat (Chr p) (Star true p).
Definition Opt (r : regex) : regex := Alt r Eps.

(** [re.search]: the leftmost start at which the pattern matches. *)
Fixpoint re_search (r : regex) (s : str) : option mstate :=
  match rmatch r Some (MState s None) with
  | Some m => Some m
  | None =>
    match s with
    | [] => None
    | _ :: t => re_search r t
    end
  end.

(** [re.fullmatch]: a match from the start that uses up the subject. *)
Definition re_fullmatch (r : regex) (s : str) : option mstate :=
  rmatch r (fun m => match rest m with [] => Some m | _ => None end) (MState s None).

(** One-character items. *)
Definition lit (a : N) : N -> bool := fun c => c =? a.
(** A letter under [re.IGNORECASE]. *)
Definition lit_nocase (a : N) : N -> bool :=
  fun c => (ascii_lower_char c =? ascii_lower_char a).
Definition anychar : N -> bool := fun _ => true.
Definition one_of (l : str) : N -> bool := fun c => existsb (N.eqb c) l.

(** Truth value of an [re] result, of a string and of a list. *)
Definition matched (m : option mstate) : bool :=
  match m with Some _ => true | None => false end.

Definition nonempty {A} (l : list A) : bool :=
  match l with [] => false | _ :: _ => true end.

(** [max(l, key=key)]: the first element whose key is the largest; [None]
    stands for the [ValueError] raised on an empty sequence. *)
Definition py_max {A} (key : A -> Z) (l : list A) : option A :=
  match l with
  | [] => None
  | x :: t => Some (fold_left (fun best y => if (key best <? key y)%Z then y else best) t x)
  end.

Section Engine.
Context `{U : Unicode}.

(** [any(kw.lower() in text.lower() for kw in kws)] *)
Definition any_in (kws : list str) (text : str) : bool :=
  existsb (fun kw => contains (lower kw) (lower text)) kws.

(** [len(re.findall(r"\d", line)) == 0] *)
Definition no_digit (line : str) : bool :=
  (length (List.filter isdecimal line) =? 0)%nat.

(** ** Evidence snippet selector *)

Definition not_found : str := py "Not Found".

(** [[A-Z0-9\s\-\(\)\[\]#:·•]] *)
Definition heading_chars (c : N) : bool :=
  ((65 <=? c) && (c <=? 90)) || ((48 <=? c) && (c <=? 57)) || isspace c
  || one_of (py "-()[]#:·•") c.

Definition heading_markers : list str :=
  [py "(ICA)"; py "(PCA)"; py "Interim Containment"; py "Permanent Corrective";
   py "Validation of"; py "System/Process Controls"].

Definition is_heading_like (line : str) : bool :=
  if (length line <? 18)%nat then true
  else if matched (re_fullmatch (Plus heading_chars) line) then true
  else if any_in heading_markers line && no_digit line then true
  else if endswith line (py ":") && no_digit line then true
  else false.

(** [sum(1 for kw in preferred_keywords if kw and kw.lower() in line.lower())] *)
Definition hits (preferred_keywords : list str) (line : str) : Z :=
  Z.of_nat (length (List.filter
    (fun kw => nonempty kw && contains (lower kw) (lower line)) preferred_keywords)).

Definition score_units : list str :=
  [py "%"; py "mpa"; py "pcs"; py "lot"; py "0/"; py "sop"; py "coa"; py "cpk"; py "ppm"].

Definition score_verbs : list str :=
  [py "screen"; py "sort"; py "inspect"; py "segreg"; py "hold"; py "stop ship";
   py "lock"; py "verify"; py "update"; py "train"; py "recipe"].

(** The nested function [score]; [preferred_keywords] is the enclosing
    function's argument, [None] when it is not given. *)
Definition score (preferred_keywords : option (list str)) (line : str) : Z :=
  let s := 0%Z in
  let s :=
    match preferred_keywords with
    | Some ((_ :: _) as kws) =>
      let hits := hits kws line in
      if (hits =? 0)%Z then s else (s + (5 + Z.min hits 3))%Z
    | _ => s
    end in
  let s := if matched (re_search (Chr isdecimal) line) then (s + 3)%Z else s in
  let s := if any_in score_units line then (s + 2)%Z else s in
  let s := if any_in score_verbs line then (s + 2)%Z else s in
  let s := if (40 <=? length line)%nat then (s + 1)%Z else s in
  s.

(** [[re.sub(r"\s+", " ", ln.strip()) for ln in text.splitlines() if ln.strip()]] *)
Definition raw_lines (text : str) : list str :=
  map (fun ln => collapse_ws (strip ln))
      (List.filter (fun ln => nonempty (strip ln)) (splitlines text)).

(** [extract_evidence_snippet(text, max_len=160, preferred_keywords=None)];
    the result is [None] if the call raises. *)
Definition extract_evidence_snippet
    (text : str) (max_len : Z) (preferred_keywords : option (list str)) : option str :=
  if negb (nonempty text) || negb (nonempty (strip text)) then Some not_found
  else
    let raw_lines := raw_lines text in
    if negb (nonempty raw_lines) then Some not_found
    else
      let candidates := List.filter (fun ln => negb (is_heading_like ln)) raw_lines in
      let candidates := if negb (nonempty candidates) then raw_lines else candidates in
      snippet ← py_max (score preferred_keywords) candidates;
      if negb (nonempty snippet) || negb (nonempty (strip snippet)) then Some not_found
      else if (max_len <? Z.of_nat (length snippet))%Z
           then Some (rstrip (slice_to (max_len - 3) snippet) ++ py "...")
           else Some snippet.

End Engine.


(** ** Section segmenter *)

(** The text of a label under [re.IGNORECASE]. *)
Fixpoint token (s : str) : regex :=
  match s with
  | [] => Eps
  | [c] => Chr (lit_nocase c)
  | c :: t => Cat (Chr (lit_nocase c)) (token t)
  end.

(** [[\.、:：\s]] *)
Definition sep_chars (c : N) : bool := one_of (py ".、:：") c || isspace c.

(** [this[\.、:：\s]*(.*?)(?=next[\.、:：\s]|$)] under [re.DOTALL | re.IGNORECASE] *)
Definition section_pattern (this next : string) : regex :=
  Cat (token (py this))
      (Cat (Star true sep_chars)
           (Cat (Group (Star false anychar))
                (Ahead (Alt (Cat (token (py next)) (Chr sep_chars)) Eos)))).

(** [this[\.、:：\s]*(.*?)$] *)
Definition last_pattern (this : string) : regex :=
  Cat (token (py this)) (Cat (Star true sep_chars) (Cat (Group (Star false anychar)) Eos)).

Definition patterns : list (regex * string) :=
  [ (section_pattern "D1" "D2", "D1");
    (section_pattern "D2" "D3", "D2");
    (section_pattern "D3" "D4", "D3");
    (section_pattern "D4" "D5", "D4");
    (section_pattern "D5" "D6", "D5");
    (section_pattern "D6" "D7", "D6");
    (section_pattern "D7" "D8", "D7");
    (last_pattern "D8", "D8") ]%string.

Definition empty_sections : gmap string str :=
  list_to_map [ ("D1", []); ("D2", []); ("D3", []); ("D4", []);
                ("D5", []); ("D6", []); ("D7", []); ("D8", []) ]%string.

(** One turn of the loop over [patterns]; [match.group(1)] is [None] for a
    group that took no part in the match, and [.strip()] then raises. *)
Definition extract_step (doc_text : str) (sections : option (gmap string str))
    (entry : regex * string) : option (gmap string str) :=
  sections ← sections;
  match re_search entry.1 doc_text with
  | Some m => g ← grp m; Some (<[entry.2 := strip g]> sections)
  | None => Some sections
  end.

(** [extract_8d_sections(doc_text)]; the result is [None] if the call raises. *)
Definition extract_8d_sections (doc_text : str) : option (gmap string str) :=
  fold_left (extract_step doc_text) patterns (Some empty_sections).

(** ** Rule evaluators *)

(** Insertion-ordered dictionaries: [d[k] = v] and [d[k]]. *)
Fixpoint dict_set {V} (d : list (string * V)) (k : string) (v : V) : list (string * V) :=
  match d with
  | [] => [(k, v)]
  | (k', v') :: t => if String.eqb k' k then (k', v) :: t else (k', v') :: dict_set t k v
  end.

Fixpoint dict_get {V} (d : list (string * V)) (k : string) : option V :=
  match d with
  | [] => None
  | (k', v') :: t => if String.eqb k' k then Some v' else dict_get t k
  end.

Record D3Result := {
  d3_passed : bool;
  found_locations : list string;
  missing_locations : list string;
  d3_comment : string }.

Record D4Result := {
  d4_passed : bool;
  found_analysis : list string;
  missing_analysis : list string;
  has_system_analysis : bool;
  d4_comment : string }.

Record D5Result := {
  d5_passed : bool;
  has_measures : bool;
  has_owner : bool;
  has_deadline : bool;
  d5_issues : list string;
  d5_comment : string }.

Record D6Result := {
  d6_passed : bool;
  has_production_verification : bool;
  has_experiment_verification : bool;
  has_data : bool;
  d6_issues : list string;
  d6_comment : string }.

Record D7Result := {
  d7_passed : bool;
  has_doc_revision : bool;
  has_training : bool;
  d7_issues : list string;
  d7_comment : string }.

Record D8Result := {
  d8_passed : bool;
  has_summary : bool;
  d8_comment : string }.

(** The value stored under a label of [reviews]. *)
Inductive RuleResult :=
| R3 (r : D3Result)
| R4 (r : D4Result)
| R5 (r : D5Result)
| R6 (r : D6Result)
| R7 (r : D7Result)
| R8 (r : D8Result).

(** [r["passed"]] *)
Definition passed (r : RuleResult) : bool :=
  match r with
  | R3 r => d3_passed r
  | R4 r => d4_passed r
  | R5 r => d5_passed r
  | R6 r => d6_passed r
  | R7 r => d7_passed r
  | R8 r => d8_passed r
  end.

(** [[k for k, v in found.items() if v]] *)
Definition true_keys (found : list (string * bool)) : list string :=
  map fst (List.filter snd found).

Section Rules.
Context `{U : Unicode}.

(** The loop shared by [review_d3] and [review_d4]:
    [for name, kws in table.items(): found[name] = any(...);
     if not found[name]: missing.append(name)],
    from [found = {}] and [missing = []]. *)
Definition scan_step (content : str) (acc : list (string * bool) * list string)
    (entry : string * list str) : list (string * bool) * list string :=
  let found := dict_set acc.1 entry.1 (any_in entry.2 content) in
  match dict_get found entry.1 with
  | Some true => (found, acc.2)
  | _ => (found, acc.2 ++ [entry.1])
  end.

Definition scan (table : list (string * list str)) (content : str)
    : list (string * bool) * list string :=
  fold_left (scan_step content) table ([], []).

Definition d3_keywords : list (string * list str) :=
  [ ("WIP", [py "在制"; py "正在生产"; py "生产中"; py "在产"; py "WIP"; py "production"; py "in-process"]);
    ("In-transit", [py "在途"; py "运输中"; py "物流"; py "发运"; py "transit"; py "shipping"; py "shipment"]);
    ("Customer Site", [py "客户现场"; py "客户处"; py "客户端"; py "现场"; py "customer site"; py "on-site"; py "onsite"]);
    ("Customer Stock", [py "客户库存"; py "客户仓库"; py "客户处库存"; py "customer stock"; py "customer warehouse"]);
    ("Internal Stock", [py "我司"; py "本司"; py "公司"; py "仓库"; py "产线"; py "车间"; py "internal stock"; py "internal inventory"; py "warehouse"; py "stock"; py "inventory"]) ]%string.

Definition review_d3 (content : str) : D3Result :=
  let '(found, missing) := scan d3_keywords content in
  let passed := (length missing =? 0)%nat in
  {| d3_passed := passed;
     found_locations := true_keys found;
     missing_locations := missing;
     d3_comment := if passed then "Pass"
                   else ("Missing containment for: " +:+ join ", " missing) |}%string.

Definition d4_checks : list (string * list str) :=
  [ ("Mechanism", [py "发生机制"; py "怎么发生"; py "发生过程"; py "发生原因"; py "机理"; py "mechanism"; py "how it happened"; py "occurrence"]);
    ("Root Cause", [py "产生原因"; py "根本原因"; py "工艺原因"; py "真因"; py "根因"; py "为什么产生"; py "root cause"; py "why it happened"]);
    ("Escape Point", [py "流出原因"; py "流出"; py "未检出"; py "未拦截"; py "漏检"; py "为什么流出"; py "escape"; py "detection failure"; py "why it was not detected"]) ]%string.

Definition system_keywords : list str :=
  [py "系统原因"; py "管理原因"; py "制度"; py "流程缺陷"; py "系统性"; py "system"; py "management"; py "procedure"; py "policy"].

Definition review_d4 (content : str) : D4Result :=
  let '(found, missing) := scan d4_checks content in
  let has_system_analysis := any_in system_keywords content in
  let passed := (length missing =? 0)%nat in
  let comment :=
    if negb passed then ("Missing analysis for: " +:+ join ", " missing)
    else if has_system_analysis then "Pass (Bonus: Systemic analysis included)"
    else "Pass" in
  {| d4_passed := passed;
     found_analysis := true_keys found;
     missing_analysis := missing;
     has_system_analysis := has_system_analysis;
     d4_comment := comment |}%string.

Definition measure_keywords : list str :=
  [py "措施"; py "改善"; py "对策"; py "纠正"; py "改进"; py "整改"; py "action"; py "measure"; py "correction"; py "fix"].

Definition owner_keywords : list str :=
  [py "责任人"; py "负责人"; py "执行人"; py "担当"; py "owner"; py "responsible"; py "person"; py "lead"].

Definition deadline_keywords : list str :=
  [py "完成时间"; py "期限"; py "日期"; py "月"; py "日"; py "date"; py "deadline"; py "due"; py "time"].

(** [issues.append(msg)] under [if not ok]. *)
Definition note (ok : bool) (msg : string) (issues : list string) : list string :=
  if negb ok then issues ++ [msg] else issues.

Definition review_d5 (content d4_content : str) : D5Result :=
  let has_measures := any_in measure_keywords content in
  let has_owner := any_in owner_keywords content in
  let has_deadline := any_in deadline_keywords content in
  let issues := [] in
  let issues := note has_measures "No specific actions described" issues in
  let issues := note has_owner "Missing owner" issues in
  let issues := note has_deadline "Missing deadline" issues in
  let passed := (length issues =? 0)%nat in
  {| d5_passed := passed;
     has_measures := has_measures;
     has_owner := has_owner;
     has_deadline := has_deadline;
     d5_issues := issues;
     d5_comment := if passed then "Pass" else ("Issues: " +:+ join "; " issues) |}%string.

Definition production_keywords : list str :=
  [py "生产验证"; py "批量验证"; py "量产"; py "生产数据"; py "良率"; py "production"; py "run"; py "batch"; py "manufacturing"].

Definition experiment_keywords : list str :=
  [py "实验验证"; py "测试"; py "试验"; py "CPK"; py "数据"; py "合格率"; py "experiment"; py "test"; py "trial"; py "lab"].

Definition data_keywords : list str :=
  [py "OK"; py "合格"; py "通过"; py "达标"; py "pass"; py "accepted"; py "good"].

(** [\d+\.?\d*\s*[%％]] *)
Definition percent_pattern : regex :=
  Cat (Plus isdecimal)
      (Cat (Opt (Chr (lit 46)))
           (Cat (Star true isdecimal)
                (Cat (Star true isspace) (Chr (one_of (py "%％")))))).

Definition review_d6 (content : str) : D6Result :=
  let has_production := any_in production_keywords content in
  let has_experiment := any_in experiment_keywords content in
  let has_data := matched (re_search percent_pattern content)
                  || any_in data_keywords content in
  let passed := (has_production || has_experiment) && has_data in
  let issues := [] in
  let issues := note (has_production || has_experiment)
                     "Validation method not specified (Production or Experiment)" issues in
  let issues := note has_data "No validation data provided" issues in
  {| d6_passed := passed;
     has_production_verification := has_production;
     has_experiment_verification := has_experiment;
     has_data := has_data;
     d6_issues := issues;
     d6_comment := if passed then "Pass" else ("Issues: " +:+ join "; " issues) |}%string.

Definition doc_keywords : list str :=
  [py "文件"; py "标准"; py "规范"; py "SOP"; py "作业指导书"; py "检验标准"; py "修订"; py "更新"; py "document"; py "standard"; py "procedure"; py "instruction"; py "revise"; py "update"].

Definition training_keywords : list str :=
  [py "培训"; py "学习"; py "教育"; py "宣贯"; py "培训记录"; py "train"; py "educate"; py "lesson"; py "teach"].

Definition review_d7 (content : str) : D7Result :=
  let has_doc_revision := any_in doc_keywords content in
  let has_training := any_in training_keywords content in
  let passed := has_doc_revision && has_training in
  let issues := [] in
  let issues := note has_doc_revision "Missing document revision" issues in
  let issues := note has_training "Missing training" issues in
  {| d7_passed := passed;
     has_doc_revision := has_doc_revision;
     has_training := has_training;
     d7_issues := issues;
     d7_comment := if passed then "Pass" else ("Issues: " +:+ join "; " issues) |}%string.

Definition summary_keywords : list str :=
  [py "总结"; py "经验"; py "教训"; py "心得"; py "感谢"; py "表彰"; py "关闭"; py "summary"; py "lesson"; py "thank"; py "recognize"; py "close"; py "team"].

Definition review_d8 (content : str) : D8Result :=
  let has_summary := any_in summary_keywords content in
  {| d8_passed := true;
     has_summary := has_summary;
     d8_comment := if has_summary then "Pass"
                   else "Suggestion: Add team recognition or lessons learned" |}%string.

End Rules.

(** ** Verdict *)

Record Verdict := {
  verdict : str;
  overall_passed : bool;
  failed_sections : list string;
  reviews : gmap string RuleResult }.

Definition critical_sections : list string := ["D3"; "D4"; "D5"; "D6"; "D7"]%string.

(** [[s for s in sections if not reviews[s]["passed"]]]; [None] is the
    [KeyError] of a label that [reviews] does not have. *)
Fixpoint failing (reviews : gmap string RuleResult) (sections : list string)
    : option (list string) :=
  match sections with
  | [] => Some []
  | s :: t =>
    r ← reviews !! s;
    more ← failing reviews t;
    Some (if negb (passed r) then s :: more else more)
  end.

(** The verdict part of [review_8d_report], from the dictionary [reviews] on
    (the file path and the wall-clock [review_date] are left out). *)
Definition verdict_of (reviews : gmap string RuleResult) : option Verdict :=
  failed_sections ← failing reviews critical_sections;
  let overall_passed := (length failed_sections =? 0)%nat in
  let verdict := if overall_passed then py "✅ 8D Report APPROVED"
                 else py "❌ 8D Report REJECTED" in
  Some {| verdict := verdict;
          overall_passed := overall_passed;
          failed_sections := failed_sections;
          reviews := reviews |}.

Section Review.
Context `{U : Unicode}.

(** [review_8d_report] from the flattened text of the document on. *)
Definition review_8d_report (full_text : str) : option Verdict :=
  sections ← extract_8d_sections full_text;
  d3 ← sections !! "D3"%string;
  d4 ← sections !! "D4"%string;
  d5 ← sections !! "D5"%string;
  d6 ← sections !! "D6"%string;
  d7 ← sections !! "D7"%string;
  d8 ← sections !! "D8"%string;
  let reviews : gmap string RuleResult :=
    list_to_map [ ("D3", R3 (review_d3 d3));
                  ("D4", R4 (review_d4 d4));
                  ("D5", R5 (review_d5 d5 d4));
                  ("D6", R6 (review_d6 d6));
                  ("D7", R7 (review_d7 d7));
                  ("D8", R8 (review_d8 d8)) ]%string in
  verdict_of reviews.

End Review.

(** ** Declarative readings, to compare the executable definitions with *)

(** [needle] occurs in [hay]. *)
Definition substring (needle hay : str) : Prop :=
  exists pre post, hay = pre ++ needle ++ post.

(** [matches r s s']: the pattern [r] can match at the front of [s], leaving
    [s']. *)
Inductive matches : regex -> str -> str -> Prop :=
| M_chr p c t : p c = true -> matches (Chr p) (c :: t) t
| M_eps s : matches Eps s s
| M_cat a b s s1 s2 : matches a s s1 -> matches b s1 s2 -> matches (Cat a b) s s2
| M_alt_l a b s s' : matches a s s' -> matches (Alt a b) s s'
| M_alt_r a b s s' : matches b s s' -> matches (Alt a b) s s'
| M_star_stop g p s : matches (Star g p) s s
| M_star_more g p c t s' :
    p c = true -> matches (Star g p) t s' -> matches (Star g p) (c :: t) s'
| M_group a s s' : matches a s s' -> matches (Group a) s s'
| M_ahead a s s' : matches a s s' -> matches (Ahead a) s s
| M_eos_end : matches Eos [] []
| M_eos_newline : matches Eos [10] [10].

(** A number followed by a percent sign: digits, optionally a point and
    further digits, optional whitespace, then [%] or [％]. *)
Definition numeric_percent `{U : Unicode} (s : str) : Prop :=
  exists int dot frac ws pct,
    s = int ++ dot ++ frac ++ ws ++ [pct]
    /\ int <> [] /\ forallb isdecimal int = true
    /\ (dot = [] \/ dot = [46])
    /\ forallb isdecimal frac = true
    /\ forallb isspace ws = true
    /\ (pct = 37 \/ pct = 65285).

(** Patterns every match of which closes group 1. *)
Fixpoint captures (r : regex) : bool :=
  match r with
  | Group _ => true
  | Cat a b => captures a || captures b
  | Alt a b => captures a && captures b
  | _ => false
  end.

(** What a pattern of [patterns] contributes to its section: the stripped
    text of group 1 of the first match in the whole document, or the initial
    empty string. *)
Definition section_text (pattern : regex) (doc_text : str) : str :=
  match re_search pattern doc_text with
  | Some m => strip (default [] (grp m))
  | None => []
  end.

(** A dictionary of six results, as [review_8d_report] builds it. *)
Definition sample_reviews : gmap string RuleResult :=
  list_to_map
    [ ("D3", R3 (review_d3 (U := ascii_unicode) (py "在制品已隔离，客户现场已通知")));
      ("D4", R4 (review_d4 (U := ascii_unicode) (py "root cause and mechanism; escape point")));
      ("D5", R5 (review_d5 (U := ascii_unicode) (py "corrective action") []));
      ("D6", R6 (review_d6 (U := ascii_unicode) (py "生产验证：连续3批量产，合格率100%")));
      ("D7", R7 (review_d7 (U := ascii_unicode) (py "SOP updated and operators trained")));
      ("D8", R8 (review_d8 (U := ascii_unicode) [])) ]%string.

(** Patterns without a capturing group. *)
Fixpoint groupless (r : regex) : bool :=
  match r with
  | Group _ => false
  | Cat a b | Alt a b => groupless a && groupless b
  | Ahead a => groupless a
  | _ => true
  end.

(** [tok] is the text of [label] up to the case of letters, as a label token
    is matched under [re.IGNORECASE]. *)
Definition token_at (label tok : str) : Prop :=
  Forall2 (fun a c => lit_nocase a c = true) label tok.

(** [d] is the heading of [label] in a document: its token and then one of
    the separator characters [[\.、:：\s]]. *)
Definition heading_at (label d : str) : Prop :=
  exists tok c, d = tok ++ [c] /\ token_at label tok /\ sep_chars c = true.

(** ** More of the evidence snippet selector *)

(** The candidate lines: [[ln for ln in raw_lines if not is_heading_like(ln)]],
    or all of [raw_lines] if that is empty. *)
Definition candidates `{U : Unicode} (text : str) : list str :=
  let candidates := List.filter (fun ln => negb (is_heading_like ln)) (raw_lines text) in
  if negb (nonempty candidates) then raw_lines text else candidates.

(** A line in normal form: it is not empty, it neither starts nor ends with
    whitespace, and its only whitespace is single spaces between other
    characters.  [after_space] tells that a space may not come next. *)
Fixpoint wellspaced (after_space : bool) (s : str) : bool :=
  match s with
  | [] => negb after_space
  | c :: t =>
    if isspace c then (c =? 32) && negb after_space && wellspaced true t
    else wellspaced false t
  end.

(** ** Flattening of the document ([read_8d_report])

    The body of the document as [python-docx] presents it: paragraphs with
    their text, tables with the texts of the cells of each row, and other
    elements, which the loop passes over. *)
Inductive block :=
| Paragraph (text : option str)
| Table (rows : list (list (option str)))
| OtherBlock.

(** The nested function [norm]: [re.sub(r"\s+", " ", (s or "").strip())]. *)
Definition norm (s : option str) : str := collapse_ws (strip (default [] s)).

(** [sep.join(parts)] *)
Fixpoint str_join (sep : str) (parts : list str) : str :=
  match parts with
  | [] => []
  | [p] => p
  | p :: ps => p ++ sep ++ str_join sep ps
  end.

(** One table row: nothing if no cell has text, else the non-empty cells
    joined by [" | "]. *)
Definition row_parts (cells : list (option str)) : list str :=
  let cells := map norm cells in
  if negb (existsb nonempty cells) then []
  else [str_join (py " | ") (List.filter nonempty cells)].

(** What one element of the body appends to [parts]. *)
Definition block_parts (child : block) : list str :=
  match child with
  | Paragraph text => let t := norm text in if nonempty t then [t] else []
  | Table rows => fold_left (fun parts row => parts ++ row_parts row) rows []
  | OtherBlock => []
  end.

(** The list [parts] after the loop over the body. *)
Definition flatten_body (body : list block) : list str :=
  fold_left (fun parts child => parts ++ block_parts child) body [].

(** [full_text = "\n".join(parts)] *)
Definition full_text_of (body : list block) : str := str_join [10] (flatten_body body).

(** [read_8d_report] from the body of the opened document on: the flattened
    text and its sections; [None] if the call raises (the program then
    answers with an error status). *)
Definition read_8d_report (body : list block) : option (str * gmap string str) :=
  let full_text := full_text_of body in
  sections ← extract_8d_sections full_text;
  Some (full_text, sections).

(** ** The audit packet ([prepare_logic_audit_packet]) *)

Record Packet := {
  gate_overall_passed : bool;
  gate_failed_sections : list string;
  gate_reviews : gmap string RuleResult;
  source_sections : gmap string str }.

(** [{k: sections.get(k, "") for k in keys}] *)
Definition pick_sections (sections : gmap string str) (keys : list string)
    : gmap string str :=
  list_to_map (map (fun k => (k, default [] (sections !! k))) keys).

(** [prepare_logic_audit_packet] from the body of the opened document on
    (the file is read by [read_8d_report] and again by [review_8d_report];
    the instructions text, the path and the date are left out). *)
Definition prepare_logic_audit_packet `{U : Unicode} (body : list block) : option Packet :=
  doc_result ← read_8d_report body;
  gate_result ← review_8d_report (full_text_of body);
  let sections := doc_result.2 in
  let d3_d7 := pick_sections sections ["D3"; "D4"; "D5"; "D6"; "D7"]%string in
  Some {| gate_overall_passed := overall_passed gate_result;
          gate_failed_sections := failed_sections gate_result;
          gate_reviews := reviews gate_result;
          source_sections := d3_d7 |}.

(** ** Appending the logic audit ([save_review_report]) *)

(** [s.split(sep, 1)] for a non-empty separator: the text before and after
    the first occurrence, or the text alone. *)
Fixpoint split_once (sep s : str) : list str :=
  if startswith s sep then [[]; drop (length sep) s]
  else
    match s with
    | [] => [[]]
    | c :: t =>
      match split_once sep t with
      | [head; tail] => [c :: head; tail]
      | _ => [s]
      end
    end.

(** [s.lstrip("\n")] *)
Fixpoint lstrip_newlines (s : str) : str :=
  match s with
  | [] => []
  | c :: t => if c =? 10 then lstrip_newlines t else s
  end.

(** [logic_review_md and str(logic_review_md).strip()], as a truth value. *)
Definition audit_given (logic_review_md : option str) : bool :=
  match logic_review_md with
  | Some md => nonempty md && nonempty (strip md)
  | None => false
  end.

Definition insert_marker : str :=
  [10] ++ py "*Generated by Q-Forge Quality Intelligence*" ++ [10].

(** The block "Append optional LLM logic audit": the report to be written and
    [logic_included]; [None] if unpacking the split raises. *)
Definition append_logic_audit (report : str) (logic_review_md : option str)
    : option (str * bool) :=
  if audit_given logic_review_md then
    let logic_block := strip (default [] logic_review_md) in
    if contains insert_marker report then
      match split_once insert_marker report with
      | [head; tail] =>
        Some (rstrip head ++ ([10; 10] ++ py "---" ++ [10; 10]) ++ logic_block
                ++ [10; 10] ++ insert_marker ++ lstrip_newlines tail, true)
      | _ => None
      end
    else Some (rstrip report ++ ([10; 10] ++ py "---" ++ [10; 10]) ++ logic_block ++ [10],
               true)
  else Some (report, false).

(** * Properties *)

(** ** Sanity checks of the string and pattern primitives *)

Example py_cjk : py "在制 WIP" = [22312; 21046; 32; 87; 73; 80].
Proof. reflexivity. Qed.

Example search_lazy_group :
  grp <$> re_search (Cat (Chr (lit 97)) (Cat (Group (Star false anychar)) (Chr (lit 98))))
                    (py "xxaQQbRRb") = Some (Some (py "QQ")).
Proof. reflexivity. Qed.

Example search_greedy_group :
  grp <$> re_search (Cat (Chr (lit 97)) (Cat (Group (Star true anychar)) (Chr (lit 98))))
                    (py "xxaQQbRRb") = Some (Some (py "QQbRR")).
Proof. reflexivity. Qed.

Example snippet_scenario6 :
  extract_evidence_snippet (U := ascii_unicode)
    (py "Root Cause:" ++ [10] ++ py "CPK improved from 0.8 to 1.5 after fixture upgrade")
    160 None
  = Some (py "CPK improved from 0.8 to 1.5 after fixture upgrade").
Proof. vm_compute. reflexivity. Qed.

(** ** Strings: stripping, line splitting, whitespace collapsing *)

Lemma lstrip_keeps c s : c ∈ s -> isspace c = false -> c ∈ lstrip s.
Proof.
  induction s as [|a t IH]; simpl; intros Hin Hc; [done|].
  destruct (isspace a) eqn:Ha; [|done].
  apply elem_of_cons in Hin as [->|Hin]; [congruence|by apply IH].
Qed.

Lemma lstrip_sub c s : c ∈ lstrip s -> c ∈ s.
Proof.
  induction s as [|a t IH]; simpl; [done|].
  destruct (isspace a); [|done]. intros H. right. by apply IH.
Qed.

Lemma lstrip_head c t s : lstrip s = c :: t -> isspace c = false.
Proof.
  induction s as [|a s IH]; simpl; [done|].
  destruct (isspace a) eqn:Ha; [done|]. by intros [= -> _].
Qed.

Lemma lstrip_length s : (length (lstrip s) <= length s)%nat.
Proof.
  induction s as [|a t IH]; simpl; [done|].
  destruct (isspace a); simpl; lia.
Qed.

Lemma rstrip_length s : (length (rstrip s) <= length s)%nat.
Proof.
  unfold rstrip. rewrite length_reverse.
  etrans; [apply lstrip_length|]. by rewrite length_reverse.
Qed.

Lemma strip_keeps c s : c ∈ s -> isspace c = false -> c ∈ strip s.
Proof.
  intros Hin Hc. unfold strip, rstrip.
  apply elem_of_reverse, lstrip_keeps; [|done].
  by apply elem_of_reverse, lstrip_keeps.
Qed.

Lemma strip_sub c s : c ∈ strip s -> c ∈ s.
Proof.
  unfold strip, rstrip. intros H.
  by apply elem_of_reverse, lstrip_sub, elem_of_reverse, lstrip_sub in H.
Qed.

(** A string is blank exactly when it has no character outside whitespace. *)
Lemma strip_nonempty s :
  nonempty (strip s) = true <-> exists c, c ∈ s /\ isspace c = false.
Proof.
  split.
  - unfold strip, rstrip.
    destruct (lstrip (reverse (lstrip s))) as [|c t] eqn:E.
    { by rewrite reverse_nil. }
    intros _. exists c. split; [|by eapply lstrip_head].
    apply lstrip_sub, elem_of_reverse, lstrip_sub. rewrite E. by left.
  - intros (c & Hin & Hc). pose proof (strip_keeps c s Hin Hc) as H.
    destruct (strip s); [by apply elem_of_nil in H|done].
Qed.

Lemma splitlines_from_sub b s ln c :
  ln ∈ splitlines_from b s -> c ∈ ln -> c ∈ s.
Proof.
  revert b ln. induction s as [|a t IH]; simpl; intros b ln Hln Hc.
  { by apply elem_of_nil in Hln. }
  destruct (b && (a =? 10)).
  { right. by eapply IH. }
  destruct (is_linebreak a).
  { apply elem_of_cons in Hln as [->|Hln]; [by apply elem_of_nil in Hc|].
    right. by eapply IH. }
  destruct (splitlines_from false t) as [|l ls] eqn:E.
  { apply list_elem_of_singleton in Hln as ->.
    apply list_elem_of_singleton in Hc as ->. by left. }
  apply elem_of_cons in Hln as [->|Hln].
  - apply elem_of_cons in Hc as [->|Hc]; [by left|].
    right. apply (IH false l); [rewrite E; by left|done].
  - right. apply (IH false ln); [rewrite E; by right|done].
Qed.

Lemma collapse_from_keeps b c s :
  c ∈ s -> isspace c = false -> c ∈ collapse_from b s.
Proof.
  revert b. induction s as [|a t IH]; simpl; intros b Hin Hc; [done|].
  apply elem_of_cons in Hin as [->|Hin].
  - rewrite Hc. by left.
  - destruct (isspace a); [destruct b|]; try right; by apply IH.
Qed.

Lemma slice_to_length n s : (0 <= n)%Z -> (Z.of_nat (length (slice_to n s)) <= n)%Z.
Proof.
  intros Hn. unfold slice_to.
  destruct (n <? 0)%Z eqn:E; [lia|]. rewrite length_take. lia.
Qed.

(** ** [max] with a key *)

Lemma fold_best_elem {A} (key : A -> Z) (t : list A) (x : A) :
  fold_left (fun best y => if (key best <? key y)%Z then y else best) t x ∈ x :: t.
Proof.
  revert x. induction t as [|y t IH]; simpl; intros x; [by left|].
  specialize (IH (if (key x <? key y)%Z then y else x)).
  apply elem_of_cons in IH as [->|IH].
  - destruct (key x <? key y)%Z; [right; by left|by left].
  - right. by right.
Qed.

Lemma py_max_elem {A} (key : A -> Z) (l : list A) (x : A) :
  py_max key l = Some x -> x ∈ l.
Proof.
  destruct l as [|y t]; simpl; [done|]. intros [= <-]. apply fold_best_elem.
Qed.

Lemma py_max_nonempty {A} (key : A -> Z) (l : list A) :
  nonempty l = true -> is_Some (py_max key l).
Proof. destruct l; simpl; [done|]. by eexists. Qed.

(** The maximum returned is maximal, and the first such element. *)
Lemma fold_best_max {A} (key : A -> Z) (t : list A) (x : A) :
  forall y, y ∈ x :: t ->
    (key y <= key (fold_left (fun best y => if (key best <? key y)%Z then y else best) t x))%Z.
Proof.
  revert x. induction t as [|z t IH]; simpl; intros x y Hy.
  { apply list_elem_of_singleton in Hy as ->. lia. }
  apply elem_of_cons in Hy as [->|Hy].
  - etrans; [|apply IH; by left]. destruct (key x <? key z)%Z eqn:E; lia.
  - apply elem_of_cons in Hy as [->|Hy].
    + etrans; [|apply IH; by left]. destruct (key x <? key z)%Z eqn:E; lia.
    + apply IH. by right.
Qed.

(** ** Evidence snippet selector *)

Section SnippetProps.
Context `{U : Unicode}.

Lemma raw_lines_nonblank text ln :
  ln ∈ raw_lines text -> nonempty ln = true /\ nonempty (strip ln) = true.
Proof.
  unfold raw_lines. intros H.
  apply list_elem_of_fmap in H as (l0 & -> & Hl0).
  apply list_elem_of_In, filter_In in Hl0 as [_ Hl0].
  apply strip_nonempty in Hl0 as (c & Hc & Hsp).
  assert (c ∈ collapse_ws (strip l0)) as Hin.
  { by apply collapse_from_keeps; [apply strip_keeps|]. }
  split.
  - destruct (collapse_ws (strip l0)); [by apply elem_of_nil in Hin|done].
  - apply strip_nonempty. eauto.
Qed.

Lemma raw_lines_text_nonblank text :
  nonempty (raw_lines text) = true ->
  nonempty text = true /\ nonempty (strip text) = true.
Proof.
  unfold raw_lines. intros H.
  destruct (List.filter _ (splitlines text)) as [|l0 ls] eqn:E; [done|].
  assert (In l0 (List.filter (fun ln => nonempty (strip ln)) (splitlines text))) as Hl0.
  { rewrite E. by left. }
  apply filter_In in Hl0 as [Hin Hl0]. apply list_elem_of_In in Hin.
  apply strip_nonempty in Hl0 as (c & Hc & Hsp).
  assert (c ∈ text) as Hct by (by eapply splitlines_from_sub).
  split.
  - destruct text; [by apply elem_of_nil in Hct|done].
  - apply strip_nonempty. eauto.
Qed.

(** The selector either finds no line and answers with the sentinel, or
    answers with one of the normalised lines, cut to [max_len] when longer. *)
Lemma snippet_cases text max_len kws :
  (raw_lines text = [] /\ extract_evidence_snippet text max_len kws = Some not_found)
  \/ (exists snippet, snippet ∈ raw_lines text /\
        extract_evidence_snippet text max_len kws =
          Some (if (max_len <? Z.of_nat (length snippet))%Z
                then rstrip (slice_to (max_len - 3) snippet) ++ py "..."
                else snippet)).
Proof.
  unfold extract_evidence_snippet.
  destruct (raw_lines text) as [|l0 ls] eqn:E.
  - left. split; [done|]. by destruct (_ || _).
  - right.
    destruct (raw_lines_text_nonblank text) as [-> ->]; [by rewrite E|].
    cbv zeta. cbn [negb orb nonempty].
    set (cands := if negb (nonempty (List.filter (fun ln => negb (is_heading_like ln))
                                                 (l0 :: ls)))
                  then l0 :: ls
                  else List.filter (fun ln => negb (is_heading_like ln)) (l0 :: ls)).
    assert (nonempty cands = true) as Hne.
    { subst cands. by destruct (List.filter _ (l0 :: ls)). }
    assert (forall x, x ∈ cands -> x ∈ l0 :: ls) as Hsub.
    { subst cands. intros x.
      destruct (nonempty (List.filter _ (l0 :: ls))); cbn [negb]; [|done].
      intros Hx. by apply list_elem_of_In, filter_In in Hx as [Hx%list_elem_of_In _]. }
    destruct (py_max_nonempty (score kws) cands Hne) as [snippet Hmax].
    rewrite Hmax. cbn [mbind option_bind].
    apply py_max_elem, Hsub in Hmax. rewrite <- E in Hmax.
    destruct (raw_lines_nonblank _ _ Hmax) as [-> ->]. cbn [negb orb].
    exists snippet. split; [by rewrite <- E|]. by destruct (_ <? _)%Z.
Qed.

(** The sentinel is not a truncated line: those end in an ellipsis. *)
Lemma ellipsis_not_sentinel (x : str) : x ++ py "..." <> not_found.
Proof.
  intros H. apply (f_equal last) in H.
  change (py "...") with ([46; 46] ++ [46]) in H.
  rewrite app_assoc, last_snoc in H. discriminate H.
Qed.

End SnippetProps.

(** C6 (as amended).  For every section text, every [max_len] of at least 3
    and every preferred-keyword list, the selector returns, and the string it
    returns is either the sentinel ["Not Found"] or at most [max_len]
    characters long; from [max_len] 9 on, the bound holds for every return. *)
Theorem snippet_length_bound `{U : Unicode} (text : str) (max_len : Z)
    (kws : option (list str)) :
  (3 <= max_len)%Z ->
  exists r, extract_evidence_snippet text max_len kws = Some r
    /\ (r = not_found \/ (Z.of_nat (length r) <= max_len)%Z)
    /\ ((9 <= max_len)%Z -> (Z.of_nat (length r) <= max_len)%Z).
Proof.
  intros Hmax.
  destruct (snippet_cases text max_len kws) as [[_ ->]|(snippet & _ & ->)].
  - exists not_found. split; [done|]. split; [by left|].
    change (length not_found) with 9%nat. lia.
  - eexists. split; [done|].
    assert (Z.of_nat (length (if (max_len <? Z.of_nat (length snippet))%Z
                              then rstrip (slice_to (max_len - 3) snippet) ++ py "..."
                              else snippet)) <= max_len)%Z as Hlen.
    { destruct (max_len <? Z.of_nat (length snippet))%Z eqn:E; [|lia].
      rewrite length_app. change (length (py "...")) with 3%nat.
      pose proof (rstrip_length (slice_to (max_len - 3) snippet)).
      pose proof (slice_to_length (max_len - 3) snippet). lia. }
    split; [by right|done].
Qed.

Lemma snippet_length_bound_witness :
  (3 <= 20)%Z /\
  exists r,
    extract_evidence_snippet (U := ascii_unicode)
      (py "CPK improved from 0.8 to 1.5 after fixture upgrade") 20 None = Some r
    /\ (r = not_found \/ (Z.of_nat (length r) <= 20)%Z)
    /\ ((9 <= 20)%Z -> (Z.of_nat (length r) <= 20)%Z).
Proof.
  split; [lia|].
  apply (snippet_length_bound (U := ascii_unicode)
           (py "CPK improved from 0.8 to 1.5 after fixture upgrade") 20 None).
  lia.
Defined.

(** C6 as stated fails: on an empty section and [max_len = 5] the selector
    returns the nine characters of the sentinel. *)
Lemma snippet_sentinel_exceeds_max_len :
  extract_evidence_snippet (U := ascii_unicode) [] 5 None = Some (py "Not Found")
  /\ ~ (Z.of_nat (length (py "Not Found")) <= 5)%Z.
Proof. split; [reflexivity|]. vm_compute. intros H. by apply H. Qed.

(** C7 (as amended).  With no non-blank line the selector returns the
    sentinel; and for a text none of whose normalised lines is literally
    ["Not Found"], it returns the sentinel only then. *)
Theorem snippet_not_found_iff `{U : Unicode} (text : str) (max_len : Z)
    (kws : option (list str)) :
  not_found ∉ raw_lines text ->
  is_Some (extract_evidence_snippet text max_len kws)
  /\ (extract_evidence_snippet text max_len kws = Some not_found <-> raw_lines text = []).
Proof.
  intros Hno.
  destruct (snippet_cases text max_len kws) as [[E ->]|(snippet & Hin & ->)].
  - split; [by eexists|done].
  - split; [by eexists|]. split.
    + intros [= H]. exfalso.
      destruct (max_len <? Z.of_nat (length snippet))%Z.
      * by apply ellipsis_not_sentinel in H.
      * subst snippet. by apply Hno.
    + intros E. rewrite E in Hin. by apply elem_of_nil in Hin.
Qed.

Lemma snippet_not_found_iff_witness :
  (not_found ∉ raw_lines (py "Root Cause:")) /\
  is_Some (extract_evidence_snippet (U := ascii_unicode) (py "Root Cause:") 160 None)
  /\ (extract_evidence_snippet (U := ascii_unicode) (py "Root Cause:") 160 None
        = Some not_found <-> raw_lines (py "Root Cause:") = []).
Proof.
  assert (not_found ∉ raw_lines (py "Root Cause:")) as H.
  { vm_compute. intros H. apply list_elem_of_singleton in H. discriminate H. }
  split; [exact H|].
  exact (snippet_not_found_iff (U := ascii_unicode) (py "Root Cause:") 160 None H).
Defined.

(** C7 as stated fails: a section whose only line reads ["Not Found"] has a
    non-blank line, and the selector returns that line. *)
Lemma snippet_literal_not_found :
  raw_lines (py "Not Found") = [py "Not Found"]
  /\ ~ (extract_evidence_snippet (U := ascii_unicode) (py "Not Found") 160 None
          = Some not_found
        <-> raw_lines (py "Not Found") = []).
Proof.
  split; [reflexivity|]. intros [H _].
  assert (raw_lines (py "Not Found") = []) as E by (apply H; reflexivity).
  vm_compute in E. discriminate E.
Qed.

(** ** Substring test *)

Lemma startswith_spec s p : startswith s p = true <-> exists post, s = p ++ post.
Proof.
  revert s. induction p as [|a p IH]; intros s; simpl.
  { split; [intros _; by exists s|done]. }
  destruct s as [|b s]; simpl.
  { split; [done|]. by intros [post H]. }
  rewrite andb_true_iff, N.eqb_eq, IH. split.
  - intros [-> [post ->]]. by exists post.
  - intros [post [= -> ->]]. eauto.
Qed.

Lemma contains_spec needle hay : contains needle hay = true <-> substring needle hay.
Proof.
  unfold substring. induction hay as [|c hay IH]; simpl.
  - rewrite orb_false_r, startswith_spec. split.
    + intros [post H]. by exists [], post.
    + intros (pre & post & H). symmetry in H.
      apply app_eq_nil in H as [-> H]. exists post. by rewrite H.
  - rewrite orb_true_iff, startswith_spec, IH. split.
    + intros [[post H]|(pre & post & H)].
      * by exists [], post.
      * exists (c :: pre), post. by rewrite H.
    + intros ([|c' pre] & post & H).
      * left. by exists post.
      * injection H as -> H. right. by exists pre, post.
Qed.

(** ** The matcher against the declarative reading of patterns *)

Lemma rmatch_complete r s s' :
  matches r s s' ->
  forall k g, (forall g', is_Some (k (MState s' g'))) -> is_Some (rmatch r k (MState s g)).
Proof.
  induction 1 as [p c t Hp| s |a b s s1 s2 _ IHa _ IHb|a b s s' _ IH|a b s s' _ IH
                 |gr p s|gr p c t s' Hp _ IH|a s s' _ IH|a s s' _ IH| |];
    intros k g Hk; simpl.
  - by rewrite Hp.
  - done.
  - apply IHa. intros g'. by apply IHb.
  - destruct (IH k g Hk) as [m ->]. by eexists.
  - destruct (rmatch a k (MState s g)); [by eexists|]. by apply IH.
  - destruct s as [|c t]; [done|].
    destruct (p c); [|done]. destruct gr.
    + match goal with |- is_Some (match ?x with _ => _ end) => destruct x end;
        [by eexists|done].
    + destruct (Hk g) as [m ->]. by eexists.
  - rewrite Hp. specialize (IH k g Hk). simpl in IH. destruct gr.
    + destruct IH as [m ->]. by eexists.
    + destruct (k (MState (c :: t) g)); [by eexists|done].
  - apply IH. intros g'. simpl. apply Hk.
  - destruct (IH Some g) as [m ->]; [by eexists|]. apply Hk.
  - done.
  - done.
Qed.

Lemma rmatch_sound r :
  forall k st m, rmatch r k st = Some m ->
    exists s' g', matches r (rest st) s' /\ k (MState s' g') = Some m.
Proof.
  induction r as [p| |a IHa b IHb|a IHa b IHb|gr p|a IH|a IH| ]; intros k [s g] m; simpl.
  - destruct s as [|c t]; [done|]. destruct (p c) eqn:Hp; [|done].
    intros H. exists t, g. split; [by constructor|done].
  - intros H. exists s, g. split; [constructor|done].
  - intros H. apply IHa in H as (s1 & g1 & Ha & H).
    apply IHb in H as (s2 & g2 & Hb & H). simpl in *.
    exists s2, g2. split; [by econstructor|done].
  - destruct (rmatch a k (MState s g)) eqn:E.
    + intros [= <-]. apply IHa in E as (s' & g' & Ha & H).
      exists s', g'. split; [by apply M_alt_l|done].
    + intros H. apply IHb in H as (s' & g' & Hb & H).
      exists s', g'. split; [by apply M_alt_r|done].
  - revert m. induction s as [|c t IHs]; intros m.
    { intros H. exists [], g. split; [constructor|done]. }
    destruct (p c) eqn:Hp.
    2:{ intros H. exists (c :: t), g. split; [constructor|done]. }
    assert (forall x, (fix loop (s : str) : option mstate :=
                match s with
                | [] => k (MState [] g)
                | c :: t =>
                  if p c then
                    if gr then match loop t with Some m => Some m
                                            | None => k (MState s g) end
                    else match k (MState s g) with Some m => Some m
                                                | None => loop t end
                  else k (MState s g)
                end) t = Some x ->
              exists s' g', matches (Star gr p) (c :: t) s' /\ k (MState s' g') = Some x)
      as Hmore.
    { intros x Hx. apply IHs in Hx as (s' & g' & Hm & Hx).
      exists s', g'. split; [by constructor|done]. }
    destruct gr.
    + match goal with |- match ?x with _ => _ end = _ -> _ => destruct x eqn:E end.
      * intros [= <-]. by apply Hmore.
      * intros H. exists (c :: t), g. split; [constructor|done].
    + destruct (k (MState (c :: t) g)) eqn:E.
      * intros [= <-]. exists (c :: t), g. split; [constructor|done].
      * apply Hmore.
  - intros H. apply IH in H as (s' & g' & Ha & H). simpl in *.
    eexists s', _. split; [by constructor|exact H].
  - destruct (rmatch a Some (MState s g)) as [st'|] eqn:E; [|done].
    apply IH in E as (s' & g' & Ha & E). simpl in *.
    intros H. exists s, (grp st'). split; [by econstructor|done].
  - destruct s as [|c [|c' t]]; [| |done].
    + intros H. exists [], g. split; [constructor|done].
    + destruct (c =? 10) eqn:Ec; [|done]. apply N.eqb_eq in Ec as ->.
      intros H. exists [10], g. split; [constructor|done].
Qed.

(** [re.search] succeeds exactly when the pattern matches at the front of some
    suffix of the subject. *)
Lemma re_search_spec r s :
  matched (re_search r s) = true <-> exists pre post s', s = pre ++ post /\ matches r post s'.
Proof.
  induction s as [|c t IH]; simpl.
  - destruct (rmatch r Some (MState [] None)) eqn:E; simpl.
    + split; [intros _|done].
      apply rmatch_sound in E as (s' & _ & Hm & _). by exists [], [], s'.
    + split; [done|]. intros (pre & post & s' & Hs & Hm).
      symmetry in Hs. apply app_eq_nil in Hs as [-> ->].
      destruct (rmatch_complete r [] s' Hm Some None) as [m Hsome]; [by eexists|].
      congruence.
  - destruct (rmatch r Some (MState (c :: t) None)) eqn:E; simpl.
    + split; [intros _|done].
      apply rmatch_sound in E as (s' & _ & Hm & _). by exists [], (c :: t), s'.
    + rewrite IH. split.
      * intros (pre & post & s' & -> & Hm). by exists (c :: pre), post, s'.
      * intros ([|c' pre] & post & s' & Hs & Hm).
        -- simpl in Hs. subst post.
           destruct (rmatch_complete r (c :: t) s' Hm Some None) as [m Hsome];
             [by eexists|]. congruence.
        -- injection Hs as -> ->. by exists pre, post, s'.
Qed.

Lemma matches_star_run g p run s' :
  forallb p run = true -> matches (Star g p) (run ++ s') s'.
Proof.
  induction run as [|c run IH]; simpl; [constructor|].
  intros [Hc Hrun]%andb_true_iff. constructor; [done|by apply IH].
Qed.

Lemma matches_star_inv g p s s' :
  matches (Star g p) s s' -> exists run, s = run ++ s' /\ forallb p run = true.
Proof.
  remember (Star g p) as r eqn:Er. induction 1; try discriminate.
  - by exists [].
  - injection Er as -> ->. destruct IHmatches as (run & -> & Hrun); [done|].
    exists (c :: run). split; [done|]. simpl. by rewrite H, Hrun.
Qed.

Lemma matches_cat_inv a b s s2 :
  matches (Cat a b) s s2 -> exists s1, matches a s s1 /\ matches b s1 s2.
Proof. inversion 1; subst. eauto. Qed.

Lemma matches_chr_inv p s s' :
  matches (Chr p) s s' -> exists c, s = c :: s' /\ p c = true.
Proof. inversion 1; subst. eauto. Qed.

Lemma matches_opt_inv r s s' :
  matches (Opt r) s s' -> matches r s s' \/ s = s'.
Proof.
  unfold Opt. inversion 1 as [| | |? ? ? ? Hm|? ? ? ? Hm| | | | | |]; subst; [by left|].
  inversion Hm; subst. by right.
Qed.

Section PercentPattern.
Context `{U : Unicode}.

Lemma percent_sign_inv c : one_of (py "%％") c = true -> c = 37 \/ c = 65285.
Proof.
  change (py "%％") with [37; 65285]. unfold one_of. simpl.
  rewrite orb_false_r, orb_true_iff, !N.eqb_eq. tauto.
Qed.

Lemma matches_percent_pattern s :
  (exists s', matches percent_pattern s s')
  <-> exists x post, s = x ++ post /\ numeric_percent x.
Proof.
  split.
  - intros (s' & H). unfold percent_pattern, Plus in H.
    apply matches_cat_inv in H as (s1 & Hint & H).
    apply matches_cat_inv in Hint as (s0 & Hd & Hds).
    apply matches_chr_inv in Hd as (d & -> & Hd).
    apply matches_star_inv in Hds as (ds & -> & Hds).
    apply matches_cat_inv in H as (s2 & Hdot & H).
    apply matches_cat_inv in H as (s3 & Hfrac & H).
    apply matches_star_inv in Hfrac as (frac & -> & Hfrac).
    apply matches_cat_inv in H as (s4 & Hws & H).
    apply matches_star_inv in Hws as (ws & -> & Hws).
    apply matches_chr_inv in H as (pct & -> & Hpct).
    apply percent_sign_inv in Hpct.
    apply matches_opt_inv in Hdot as [Hdot| ->].
    + apply matches_chr_inv in Hdot as (c & -> & Hc).
      apply N.eqb_eq in Hc as ->.
      exists ((d :: ds) ++ [46] ++ frac ++ ws ++ [pct]), s'. split.
      { by simplify_list_eq. }
      exists (d :: ds), [46], frac, ws, pct. simpl. rewrite Hd, Hds. by repeat split; auto.
    + exists ((d :: ds) ++ [] ++ frac ++ ws ++ [pct]), s'. split.
      { by simplify_list_eq. }
      exists (d :: ds), [], frac, ws, pct. simpl. rewrite Hd, Hds. by repeat split; auto.
  - intros (x & post & -> & int & dot & frac & ws & pct & -> & Hne & Hint & Hdot & Hfrac & Hws & Hpct).
    exists post. destruct int as [|d ds]; [done|].
    simpl in Hint. apply andb_true_iff in Hint as [Hd Hds].
    unfold percent_pattern, Plus.
    rewrite <- !app_assoc. simpl.
    eapply M_cat.
    { eapply M_cat; [by apply M_chr|by apply matches_star_run]. }
    eapply M_cat.
    { destruct Hdot as [-> | ->]; simpl.
      - apply M_alt_r, M_eps.
      - apply M_alt_l, M_chr. reflexivity. }
    destruct Hdot as [-> | ->]; simpl.
    + eapply M_cat; [by apply matches_star_run|].
      eapply M_cat; [by apply matches_star_run|].
      apply M_chr. change (py "%％") with [37; 65285].
      by destruct Hpct as [-> | ->].
    + eapply M_cat; [by apply matches_star_run|].
      eapply M_cat; [by apply matches_star_run|].
      apply M_chr. change (py "%％") with [37; 65285].
      by destruct Hpct as [-> | ->].
Qed.

(** The search for [percent_pattern] succeeds exactly on the texts that hold a
    number followed by a percent sign. *)
Lemma percent_search_spec content :
  matched (re_search percent_pattern content) = true
  <-> exists pre x post, content = pre ++ x ++ post /\ numeric_percent x.
Proof.
  rewrite re_search_spec. split.
  - intros (pre & rest & s' & -> & Hm).
    destruct (proj1 (matches_percent_pattern rest)) as (x & post & -> & Hx); [eauto|].
    by exists pre, x, post.
  - intros (pre & x & post & -> & Hx).
    destruct (proj2 (matches_percent_pattern (x ++ post))) as (s' & Hm); [eauto|].
    by exists pre, (x ++ post), s'.
Qed.

Lemma any_in_spec kws text :
  any_in kws text = true <-> exists kw, kw ∈ kws /\ substring (lower kw) (lower text).
Proof.
  unfold any_in. rewrite existsb_exists. split.
  - intros (kw & Hin & Hc). exists kw. by rewrite list_elem_of_In, <- contains_spec.
  - intros (kw & Hin & Hc). exists kw. by rewrite <- list_elem_of_In, contains_spec.
Qed.

End PercentPattern.

(** ** Rule evaluators *)

(** C2.  D6 passes iff (production verification or experiment verification)
    and data; and it has data iff the text holds a number followed by a
    percent sign, or holds one of the pass/accepted keywords as a
    case-insensitive substring. *)
Theorem review_d6_passed `{U : Unicode} (content : str) :
  let r := review_d6 content in
  d6_passed r
    = (has_production_verification r || has_experiment_verification r) && has_data r
  /\ (d6_passed r = true <->
        (has_production_verification r = true \/ has_experiment_verification r = true)
        /\ has_data r = true)
  /\ (has_data r = true <->
        (exists pre x post, content = pre ++ x ++ post /\ numeric_percent x)
        \/ (exists kw, kw ∈ [py "OK"; py "合格"; py "通过"; py "达标"; py "pass";
                             py "accepted"; py "good"]
                       /\ substring (lower kw) (lower content))).
Proof.
  cbv zeta. unfold review_d6. cbn [d6_passed has_production_verification
    has_experiment_verification has_data].
  split; [done|]. split.
  - by rewrite andb_true_iff, orb_true_iff.
  - by rewrite orb_true_iff, percent_search_spec, any_in_spec.
Qed.

(** C8.  The D5 evaluation does not depend on the D4 text it is given: it
    passes iff measures, owner and deadline keywords are all present in the
    D5 text. *)
Theorem review_d5_ignores_d4 `{U : Unicode} (content d4a d4b : str) :
  review_d5 content d4a = review_d5 content d4b
  /\ d5_passed (review_d5 content d4a)
       = any_in measure_keywords content && any_in owner_keywords content
         && any_in deadline_keywords content
  /\ has_measures (review_d5 content d4a) = any_in measure_keywords content
  /\ has_owner (review_d5 content d4a) = any_in owner_keywords content
  /\ has_deadline (review_d5 content d4a) = any_in deadline_keywords content.
Proof.
  split; [reflexivity|]. unfold review_d5. cbn -[any_in].
  split; [|done].
  by destruct (any_in measure_keywords content), (any_in owner_keywords content),
       (any_in deadline_keywords content).
Qed.

(** C10.  A text whose lowercase form contains "ok" anywhere has data for
    D6: the keyword "OK" is looked up as a plain substring. *)
Theorem review_d6_ok_anywhere `{U : Unicode} (content : str) :
  substring (py "ok") (lower content) ->
  has_data (review_d6 content) = true.
Proof.
  intros Hok. unfold review_d6. cbn [has_data].
  apply orb_true_iff. right. apply any_in_spec.
  exists (py "OK"). split; [by left|].
  rewrite lower_ascii; [done|].
  change (py "OK") with [79; 75]. by repeat constructor.
Qed.

Lemma review_d6_ok_anywhere_witness :
  substring (py "ok") (@lower ascii_unicode (py "The seal is broken"))
  /\ has_data (review_d6 (U := ascii_unicode) (py "The seal is broken")) = true.
Proof.
  assert (substring (py "ok") (@lower ascii_unicode (py "The seal is broken"))) as H.
  { by exists (py "the seal is br"), (py "en"). }
  split; [exact H|].
  exact (review_d6_ok_anywhere (U := ascii_unicode) (py "The seal is broken") H).
Defined.

(** ** Scoring of candidate lines *)

(** C9 (as amended).  Preferred keywords add [5 + min hits 3] to the score of
    a line with at least one hit, where [hits] counts the non-empty keywords
    found as case-insensitive substrings: 6 for one hit, 7 for two, 8 for
    three or more; they add nothing without a hit. *)
Theorem score_keyword_contribution `{U : Unicode} (kws : list str) (line : str) :
  let h := hits kws line in
  let gain := (score (Some kws) line - score None line)%Z in
  gain = (if (h =? 0)%Z then 0 else 5 + Z.min h 3)%Z
  /\ ((h = 0 /\ gain = 0) \/ (h = 1 /\ gain = 6) \/ (h = 2 /\ gain = 7)
      \/ (3 <= h /\ gain = 8))%Z.
Proof.
  cbv zeta.
  assert ((score (Some kws) line - score None line)%Z
          = (if (hits kws line =? 0)%Z then 0 else 5 + Z.min (hits kws line) 3)%Z) as ->.
  { unfold score. cbv zeta. destruct kws as [|kw kws].
    - change (hits [] line) with 0%Z. cbn [Z.eqb].
      repeat match goal with |- context [if ?c then _ else _] => destruct c end; lia.
    - destruct (hits (kw :: kws) line =? 0)%Z;
        repeat match goal with |- context [if ?c then _ else _] => destruct c end; lia. }
  split; [done|].
  assert (0 <= hits kws line)%Z by (unfold hits; lia).
  destruct (hits kws line =? 0)%Z eqn:E; lia.
Qed.

(** C9 as stated fails: one keyword hit adds 6 to the score of a line, not 5. *)
Lemma score_one_hit_adds_six :
  hits (U := ascii_unicode) [py "cpk"] (py "CPK improved") = 1%Z
  /\ (score (U := ascii_unicode) (Some [py "cpk"]) (py "CPK improved")
      - score (U := ascii_unicode) None (py "CPK improved"))%Z <> 5%Z.
Proof. split; [reflexivity|]. vm_compute. discriminate. Qed.

(** ** Category scan of D3 and D4 *)

Lemma dict_set_fresh {V} (d : list (string * V)) k v :
  k ∉ map fst d -> dict_set d k v = d ++ [(k, v)].
Proof.
  induction d as [|[k' v'] d IH]; simpl; intros Hk; [done|].
  apply not_elem_of_cons in Hk as [Hne Hk].
  destruct (String.eqb k' k) eqn:E.
  - apply String.eqb_eq in E. congruence.
  - by rewrite IH.
Qed.

Lemma dict_get_snoc {V} (d : list (string * V)) k v :
  k ∉ map fst d -> dict_get (d ++ [(k, v)]) k = Some v.
Proof.
  induction d as [|[k' v'] d IH]; simpl; intros Hk.
  - by rewrite String.eqb_refl.
  - apply not_elem_of_cons in Hk as [Hne Hk].
    destruct (String.eqb k' k) eqn:E; [|by apply IH].
    apply String.eqb_eq in E. congruence.
Qed.

Lemma true_keys_app found found' :
  true_keys (found ++ found') = true_keys found ++ true_keys found'.
Proof. unfold true_keys. by rewrite List.filter_app, map_app. Qed.

Section ScanProps.
Context `{U : Unicode}.
Variable content : str.

Lemma scan_fold table : forall found missing,
  NoDup (map fst found ++ map fst table) ->
  fold_left (scan_step content) table (found, missing)
  = (found ++ map (fun e => (e.1, any_in e.2 content)) table,
     missing ++ map fst (List.filter (fun e => negb (any_in e.2 content)) table)).
Proof.
  induction table as [|[name kws] table IH]; intros found missing Hnd; simpl.
  { by rewrite !app_nil_r. }
  assert (name ∉ map fst found) as Hfresh.
  { apply NoDup_app in Hnd as (_ & Hdisj & _). intros Hin.
    apply (Hdisj name Hin). by left. }
  unfold scan_step at 2. cbn [fst snd].
  rewrite dict_set_fresh, dict_get_snoc by done.
  assert (NoDup (map fst (found ++ [(name, any_in kws content)]) ++ map fst table)) as Hnd'.
  { rewrite map_app. simpl. by rewrite <- app_assoc. }
  destruct (any_in kws content) eqn:E; simpl; rewrite IH by done;
    by rewrite <- !app_assoc.
Qed.

Lemma scan_spec table :
  NoDup (map fst table) ->
  scan table content
  = (map (fun e => (e.1, any_in e.2 content)) table,
     map fst (List.filter (fun e => negb (any_in e.2 content)) table)).
Proof. intros Hnd. unfold scan. by rewrite scan_fold. Qed.

Lemma true_keys_scan table :
  true_keys (map (fun e => (e.1, any_in e.2 content)) table)
  = map fst (List.filter (fun e : string * list str => any_in e.2 content) table).
Proof.
  unfold true_keys. induction table as [|[name kws] table IH]; simpl; [done|].
  destruct (any_in kws content); simpl; by rewrite IH.
Qed.

(** The categories reported missing are those of the table that are not
    reported found, in the order of the table. *)
Lemma scan_missing_complement table :
  NoDup (map fst table) ->
  map fst (List.filter (fun e => negb (any_in e.2 content)) table)
  = List.filter
      (fun name => bool_decide
         (name ∉ map fst (List.filter (fun e : string * list str => any_in e.2 content) table)))
      (map fst table).
Proof.
  induction table as [|[name kws] table IH]; simpl; intros Hnd; [done|].
  apply NoDup_cons in Hnd as [Hfresh Hnd]. specialize (IH Hnd).
  assert (name ∉ map fst (List.filter
            (fun e : string * list str => any_in e.2 content) table)) as Hnot.
  { intros Hin. apply Hfresh. apply list_elem_of_fmap in Hin as (e & -> & He).
    apply list_elem_of_In, filter_In in He as [He _].
    apply list_elem_of_fmap. exists e. by rewrite list_elem_of_In. }
  destruct (any_in kws content) eqn:E; simpl.
  - rewrite bool_decide_eq_false_2 by (intros H; apply H; by left).
    rewrite IH. apply filter_ext_in. intros loc Hloc.
    apply bool_decide_ext. rewrite not_elem_of_cons. split; [|tauto].
    intros H. split; [|done]. intros ->. by apply Hfresh, list_elem_of_In.
  - rewrite bool_decide_eq_true_2 by done. by rewrite IH.
Qed.

End ScanProps.

(** C3.  D3 passes iff all five location categories are found, a category
    being found when one of its keywords occurs in the text as a
    case-insensitive substring; and the missing locations are exactly the
    categories that are not among the found ones. *)
Theorem review_d3_all_locations `{U : Unicode} (content : str) :
  let r := review_d3 content in
  let categories :=
    ["WIP"; "In-transit"; "Customer Site"; "Customer Stock"; "Internal Stock"]%string in
  map fst d3_keywords = categories
  /\ (forall loc, loc ∈ found_locations r <->
        exists kws kw, (loc, kws) ∈ d3_keywords /\ kw ∈ kws
                       /\ substring (lower kw) (lower content))
  /\ (d3_passed r = true <-> forall loc, loc ∈ categories -> loc ∈ found_locations r)
  /\ missing_locations r
       = List.filter (fun loc => bool_decide (loc ∉ found_locations r)) categories
  /\ (forall loc, loc ∈ missing_locations r <->
        loc ∈ categories /\ loc ∉ found_locations r).
Proof.
  cbv zeta.
  assert (NoDup (map fst d3_keywords)) as Hnd.
  { compute_done. }
  unfold review_d3. rewrite (scan_spec content d3_keywords Hnd).
  cbn [d3_passed found_locations missing_locations].
  rewrite true_keys_scan, (scan_missing_complement content d3_keywords Hnd).
  change (map fst d3_keywords)
    with ["WIP"; "In-transit"; "Customer Site"; "Customer Stock"; "Internal Stock"]%string.
  set (categories :=
    ["WIP"; "In-transit"; "Customer Site"; "Customer Stock"; "Internal Stock"]%string).
  set (found := map fst (List.filter _ d3_keywords)).
  set (missing := List.filter _ categories).
  assert (forall loc, loc ∈ missing <-> loc ∈ categories /\ loc ∉ found) as Hmiss.
  { intros loc. subst missing.
    rewrite list_elem_of_In, filter_In, <- list_elem_of_In.
    by rewrite bool_decide_eq_true. }
  split; [done|]. split; [|split; [|split; [done|exact Hmiss]]].
  - intros loc. subst found. rewrite list_elem_of_fmap. split.
    + intros ([name kws] & -> & He).
      apply list_elem_of_In, filter_In in He as [He Hany]. simpl in Hany.
      apply any_in_spec in Hany as (kw & Hkw & Hsub).
      exists kws, kw. by rewrite list_elem_of_In.
    + intros (kws & kw & He & Hkw & Hsub). exists (loc, kws). split; [done|].
      apply list_elem_of_In, filter_In. split; [by apply list_elem_of_In|].
      simpl. apply any_in_spec. eauto.
  - rewrite Nat.eqb_eq, length_zero_iff_nil. split.
    + intros Hnil loc Hloc. destruct (decide (loc ∈ found)) as [|Hnot]; [done|].
      assert (loc ∈ missing) as Hin by by apply Hmiss.
      rewrite Hnil in Hin. by apply elem_of_nil in Hin.
    + intros Hall. destruct missing as [|loc l] eqn:E; [done|].
      assert (loc ∈ categories /\ loc ∉ found) as [Hc Hn].
      { apply Hmiss. by left. }
      by apply Hall in Hc.
Qed.

(** ** Section segmenter *)

Lemma rmatch_grp_mono r :
  forall k st m, rmatch r k st = Some m ->
    exists st', k st' = Some m /\ (is_Some (grp st) -> is_Some (grp st')).
Proof.
  induction r as [p| |a IHa b IHb|a IHa b IHb|gr p|a IH|a IH| ]; intros k [s g] m; simpl.
  - destruct s as [|c t]; [done|]. destruct (p c); [|done]. eauto.
  - eauto.
  - intros H. apply IHa in H as (st1 & H & H1). apply IHb in H as (st2 & H & H2).
    simpl in *. eauto.
  - destruct (rmatch a k (MState s g)) eqn:E.
    + intros [= <-]. by apply IHa in E.
    + apply IHb.
  - revert m. induction s as [|c t IHs]; intros m; [eauto|].
    destruct (p c); [|eauto]. destruct gr.
    + match goal with |- match ?x with _ => _ end = _ -> _ => destruct x eqn:E end.
      * intros [= <-]. by apply IHs.
      * eauto.
    + destruct (k (MState (c :: t) g)) eqn:E; [|apply IHs].
      intros [= <-]. eauto.
  - intros H. apply IH in H as (st' & H & _). simpl in *.
    eexists. split; [exact H|]. by eexists.
  - destruct (rmatch a Some (MState s g)) as [st'|] eqn:E; [|done].
    apply IH in E as (st'' & [= ->] & Hg). simpl in *. eauto.
  - destruct s as [|c [|c' t]]; [eauto| |done]. destruct (c =? 10); [eauto|done].
Qed.

Lemma rmatch_captures r :
  captures r = true ->
  forall k st m, rmatch r k st = Some m -> exists st', k st' = Some m /\ is_Some (grp st').
Proof.
  induction r as [p| |a IHa b IHb|a IHa b IHb|gr p|a IH|a IH| ]; simpl; try done.
  - intros [Ha|Hb]%orb_true_iff k st m H.
    + apply (IHa Ha) in H as (st1 & H & H1).
      apply rmatch_grp_mono in H as (st2 & H & H2). eauto.
    + apply rmatch_grp_mono in H as (st1 & H & _). by apply (IHb Hb) in H.
  - intros [Ha Hb]%andb_true_iff k st m.
    destruct (rmatch a k st) eqn:E.
    + intros [= <-]. by apply (IHa Ha) in E.
    + by apply IHb.
  - intros _ k st m H. apply rmatch_grp_mono in H as (st' & H & _).
    eexists. split; [exact H|]. by eexists.
Qed.

Lemma re_search_captures r s m :
  captures r = true -> re_search r s = Some m -> is_Some (grp m).
Proof.
  intros Hc. induction s as [|c t IH]; simpl.
  - destruct (rmatch r Some (MState [] None)) eqn:E; [|done].
    intros [= <-]. by apply (rmatch_captures r Hc) in E as (st' & [= ->] & H).
  - destruct (rmatch r Some (MState (c :: t) None)) eqn:E; [|done].
    intros [= <-]. by apply (rmatch_captures r Hc) in E as (st' & [= ->] & H).
Qed.

(** The loop over the patterns never raises; it keeps the keys of the
    dictionary, and writes under each label of the list what the pattern of
    that label finds in the whole document. *)
Lemma extract_fold doc_text ps : forall sections : gmap string str,
  Forall (fun e => captures e.1 = true) ps ->
  NoDup (map snd ps) ->
  (forall e, e ∈ ps -> is_Some (sections !! e.2)) ->
  exists sections' : gmap string str,
    fold_left (extract_step doc_text) ps (Some sections) = Some sections'
    /\ dom sections' = dom sections
    /\ (forall s, s ∉ map snd ps -> sections' !! s = sections !! s)
    /\ (forall e, e ∈ ps ->
          sections' !! e.2 =
            match re_search e.1 doc_text with
            | Some m => strip <$> grp m
            | None => sections !! e.2
            end).
Proof.
  induction ps as [|[pattern section] ps IH]; intros sections Hcap Hnd Hdom;
    cbn [fold_left].
  { exists sections. split; [done|]. split; [done|]. split; [done|].
    by intros e He%elem_of_nil. }
  apply Forall_cons in Hcap as [Hc Hcap]. apply NoDup_cons in Hnd as [Hfresh Hnd].
  simpl in Hc.
  assert (exists sections1 : gmap string str,
            extract_step doc_text (Some sections) (pattern, section) = Some sections1
            /\ dom sections1 = dom sections
            /\ (forall s, s <> section -> sections1 !! s = sections !! s)
            /\ sections1 !! section =
                 match re_search pattern doc_text with
                 | Some m => strip <$> grp m
                 | None => sections !! section
                 end) as (sections1 & -> & Hdom1 & Hother & Hthis).
  { unfold extract_step. simpl.
    destruct (re_search pattern doc_text) as [m|] eqn:E; [|by exists sections].
    destruct (re_search_captures _ _ _ Hc E) as [g ->]. simpl.
    exists (<[section := strip g]> sections). split; [done|]. split.
    - rewrite dom_insert_L. apply subseteq_union_1_L, singleton_subseteq_l.
      apply elem_of_dom, (Hdom (pattern, section)). by left.
    - split; [|by rewrite lookup_insert_eq].
      intros s Hs. by rewrite lookup_insert_ne. }
  destruct (IH sections1 Hcap Hnd) as (sections' & -> & Hdom' & Hout & Hin).
  { intros e He. apply elem_of_dom. rewrite Hdom1. apply elem_of_dom, Hdom. by right. }
  exists sections'. split; [done|]. split; [by rewrite Hdom'|]. split.
  - intros s Hs. apply not_elem_of_cons in Hs as [Hne Hs].
    by rewrite Hout, Hother.
  - intros e [->|He]%elem_of_cons.
    + simpl. by rewrite Hout, Hthis.
    + rewrite (Hin e He), Hother; [done|].
      intros Heq. apply Hfresh. rewrite <- Heq.
      apply list_elem_of_fmap. by exists e.
Qed.

Lemma patterns_capture : Forall (fun e => captures e.1 = true) patterns.
Proof. by repeat constructor. Qed.

Lemma patterns_labels :
  map snd patterns = ["D1"; "D2"; "D3"; "D4"; "D5"; "D6"; "D7"; "D8"]%string.
Proof. reflexivity. Qed.

Lemma extract_8d_sections_spec doc_text :
  exists sections : gmap string str,
    extract_8d_sections doc_text = Some sections
    /\ dom sections = dom empty_sections
    /\ (forall pattern section, (pattern, section) ∈ patterns ->
          sections !! section = Some (section_text pattern doc_text)).
Proof.
  destruct (extract_fold doc_text patterns empty_sections patterns_capture)
    as (sections & H & Hdom & _ & Hin).
  { rewrite patterns_labels. compute_done. }
  { intros e He. apply list_elem_of_In in He.
    repeat (destruct He as [<-|He]; [by eexists|]). done. }
  exists sections. split; [done|]. split; [done|].
  intros pattern section He. pose proof (Hin _ He) as Hv. simpl in Hv.
  rewrite Hv. unfold section_text.
  destruct (re_search pattern doc_text) as [m|] eqn:E.
  - by destruct (re_search_captures _ _ _
                   (proj1 (Forall_forall _ _) patterns_capture _ He) E) as [g ->].
  - apply list_elem_of_In in He.
    repeat (destruct He as [[= <- <-]|He]; [done|]). done.
Qed.

(** C4.  For every input text the segmenter returns, and what it returns has
    exactly the keys D1 .. D8, each with a string that is empty when the
    pattern of its label finds no match. *)
Theorem extract_8d_sections_total (doc_text : str) :
  exists sections : gmap string str,
    extract_8d_sections doc_text = Some sections
    /\ dom sections = {[ "D1"; "D2"; "D3"; "D4"; "D5"; "D6"; "D7"; "D8" ]}%string
    /\ (forall pattern section, (pattern, section) ∈ patterns ->
          re_search pattern doc_text = None -> sections !! section = Some []).
Proof.
  destruct (extract_8d_sections_spec doc_text) as (sections & H & Hdom & Hval).
  exists sections. split; [done|]. split.
  - rewrite Hdom. compute_done.
  - intros pattern section He Hnone. rewrite (Hval _ _ He).
    unfold section_text. by rewrite Hnone.
Qed.

(** C5.  Every section is what the pattern of its own label finds in the
    whole document; so in a document with the labels D1 and D3 and no D2 the
    D1 section runs to the end of the document, through the D3 heading and
    body, and the D3 section is extracted from the same text all the same. *)
Theorem segmentation_non_exclusive :
  (forall doc_text, exists sections : gmap string str,
      extract_8d_sections doc_text = Some sections
      /\ forall pattern section, (pattern, section) ∈ patterns ->
           sections !! section = Some (section_text pattern doc_text))
  /\ let doc_text := py "D1 Team" ++ [10] ++ py "D3 Hold all WIP" in
     substring (py "D1") doc_text
     /\ substring (py "D3") doc_text
     /\ re_search (token (py "D2")) doc_text = None
     /\ exists sections : gmap string str,
          extract_8d_sections doc_text = Some sections
          /\ sections !! "D1"%string = Some (py "Team" ++ [10] ++ py "D3 Hold all WIP")
          /\ sections !! "D3"%string = Some (py "Hold all WIP").
Proof.
  split.
  - intros doc_text.
    destruct (extract_8d_sections_spec doc_text) as (sections & H & _ & Hval). eauto.
  - cbv zeta. split; [by exists [], (py " Team" ++ [10] ++ py "D3 Hold all WIP")|].
    split; [by exists (py "D1 Team" ++ [10]), (py " Hold all WIP")|].
    split; [by vm_compute|].
    destruct (extract_8d_sections_spec (py "D1 Team" ++ [10] ++ py "D3 Hold all WIP"))
      as (sections & H & _ & Hval).
    exists sections. split; [done|]. split.
    + rewrite (Hval (section_pattern "D1" "D2") "D1"%string); [by vm_compute|].
      by left.
    + rewrite (Hval (section_pattern "D3" "D4") "D3"%string); [by vm_compute|].
      do 2 right. by left.
Qed.

(** ** Verdict *)

Lemma failing_spec (reviews : gmap string RuleResult) ls :
  (forall l, l ∈ ls -> is_Some (reviews !! l)) ->
  failing reviews ls
  = Some (List.filter
            (fun l => match reviews !! l with Some r => negb (passed r) | None => false end)
            ls).
Proof.
  induction ls as [|l ls IH]; intros Hall; simpl; [done|].
  destruct (Hall l) as [r Hr]; [by left|]. rewrite Hr. simpl.
  rewrite IH by (intros l' Hl'; apply Hall; by right). simpl.
  by destruct (passed r).
Qed.

Lemma verdict_of_spec (reviews : gmap string RuleResult) :
  (forall l, l ∈ critical_sections -> is_Some (reviews !! l)) ->
  exists v, verdict_of reviews = Some v
    /\ failed_sections v
       = List.filter
           (fun l => match reviews !! l with Some r => negb (passed r) | None => false end)
           critical_sections
    /\ overall_passed v = (length (failed_sections v) =? 0)%nat.
Proof.
  intros Hall. unfold verdict_of. rewrite (failing_spec reviews critical_sections Hall).
  cbn [mbind option_bind]. by eexists.
Qed.

(** C1.  On a dictionary of the six results, the verdict passes iff each of
    D3, D4, D5, D6 and D7 passed; the failed sections are, in that order, the
    labels among these five whose result did not pass; and the result stored
    under D8 changes neither. *)
Theorem verdict_of_critical (reviews : gmap string RuleResult) :
  dom reviews = {[ "D3"; "D4"; "D5"; "D6"; "D7"; "D8" ]}%string ->
  exists v, verdict_of reviews = Some v
    /\ (overall_passed v = true <->
          passed <$> reviews !! "D3"%string = Some true
          /\ passed <$> reviews !! "D4"%string = Some true
          /\ passed <$> reviews !! "D5"%string = Some true
          /\ passed <$> reviews !! "D6"%string = Some true
          /\ passed <$> reviews !! "D7"%string = Some true)
    /\ failed_sections v
         = List.filter (fun l => bool_decide (passed <$> reviews !! l = Some false))
                       ["D3"; "D4"; "D5"; "D6"; "D7"]%string
    /\ (forall r8, exists v8,
          verdict_of (<["D8"%string := r8]> reviews) = Some v8
          /\ overall_passed v8 = overall_passed v
          /\ failed_sections v8 = failed_sections v).
Proof.
  intros Hdom.
  assert (forall l, l ∈ critical_sections -> is_Some (reviews !! l)) as Hall.
  { intros l Hl. apply elem_of_dom. rewrite Hdom. unfold critical_sections in Hl.
    repeat (apply elem_of_cons in Hl as [->|Hl]; [compute_done|]).
    by apply elem_of_nil in Hl. }
  assert (forall r8 l, l ∈ critical_sections ->
            <["D8"%string := r8]> reviews !! l = reviews !! l) as Hsame.
  { intros r8 l Hl. apply lookup_insert_ne. intros <-. revert Hl. compute_done. }
  destruct (verdict_of_spec reviews Hall) as (v & Hv & Hfailed & Hover).
  exists v. split; [done|].
  destruct (Hall "D3"%string) as [r3 H3]; [compute_done|].
  destruct (Hall "D4"%string) as [r4 H4]; [compute_done|].
  destruct (Hall "D5"%string) as [r5 H5]; [compute_done|].
  destruct (Hall "D6"%string) as [r6 H6]; [compute_done|].
  destruct (Hall "D7"%string) as [r7 H7]; [compute_done|].
  split; [|split].
  - rewrite Hover, Hfailed. unfold critical_sections. cbn [List.filter].
    rewrite H3, H4, H5, H6, H7. simpl.
    destruct (passed r3), (passed r4), (passed r5), (passed r6), (passed r7);
      simpl; split; (done || (intros (? & ? & ? & ? & ?); done)).
  - rewrite Hfailed. unfold critical_sections. cbn [List.filter].
    rewrite H3, H4, H5, H6, H7. simpl.
    destruct (passed r3), (passed r4), (passed r5), (passed r6), (passed r7);
      reflexivity.
  - intros r8.
    destruct (verdict_of_spec (<["D8"%string := r8]> reviews))
      as (v8 & Hv8 & Hfailed8 & Hover8).
    { intros l Hl. rewrite Hsame by done. by apply Hall. }
    exists v8. split; [done|].
    assert (failed_sections v8 = failed_sections v) as Heq.
    { rewrite Hfailed8, Hfailed. apply filter_ext_in. intros l Hl.
      by rewrite Hsame by by apply list_elem_of_In. }
    split; [|done]. by rewrite Hover8, Hover, Heq.
Qed.

Lemma verdict_of_critical_witness :
  dom sample_reviews = {[ "D3"; "D4"; "D5"; "D6"; "D7"; "D8" ]}%string
  /\ exists v, verdict_of sample_reviews = Some v
    /\ (overall_passed v = true <->
          passed <$> sample_reviews !! "D3"%string = Some true
          /\ passed <$> sample_reviews !! "D4"%string = Some true
          /\ passed <$> sample_reviews !! "D5"%string = Some true
          /\ passed <$> sample_reviews !! "D6"%string = Some true
          /\ passed <$> sample_reviews !! "D7"%string = Some true)
    /\ failed_sections v
         = List.filter (fun l => bool_decide (passed <$> sample_reviews !! l = Some false))
                       ["D3"; "D4"; "D5"; "D6"; "D7"]%string
    /\ (forall r8, exists v8,
          verdict_of (<["D8"%string := r8]> sample_reviews) = Some v8
          /\ overall_passed v8 = overall_passed v
          /\ failed_sections v8 = failed_sections v).
Proof.
  assert (dom sample_reviews = {[ "D3"; "D4"; "D5"; "D6"; "D7"; "D8" ]}%string) as Hdom.
  { compute_done. }
  split; [exact Hdom|]. exact (verdict_of_critical sample_reviews Hdom).
Defined.

(** ** The scenarios of the review rules *)

Example d3_all_locations :
  review_d3 (U := ascii_unicode)
    (py "WIP 在制品已全部隔离；在途物资已通知物流暂停发运；客户现场已通知暂停使用；客户仓库来料已标识隔离；我司仓库已执行分批筛选")
  = {| d3_passed := true;
       found_locations :=
         ["WIP"; "In-transit"; "Customer Site"; "Customer Stock"; "Internal Stock"]%string;
       missing_locations := [];
       d3_comment := "Pass" |}.
Proof. vm_compute. reflexivity. Qed.

Example d3_three_missing :
  review_d3 (U := ascii_unicode) (py "在制品已隔离，客户现场已通知")
  = {| d3_passed := false;
       found_locations := ["WIP"; "Customer Site"]%string;
       missing_locations := ["In-transit"; "Customer Stock"; "Internal Stock"]%string;
       d3_comment :=
         "Missing containment for: In-transit, Customer Stock, Internal Stock" |}.
Proof. vm_compute. reflexivity. Qed.

Example d4_escape_point_missing :
  let r := review_d4 (U := ascii_unicode) (py "Root cause: the mechanism is tool wear") in
  d4_passed r = false /\ missing_analysis r = ["Escape Point"]%string.
Proof. vm_compute. split; reflexivity. Qed.

Example d6_percent_data :
  let r := review_d6 (U := ascii_unicode) (py "生产验证：连续3批量产，合格率100%") in
  has_production_verification r = true /\ has_data r = true /\ d6_passed r = true.
Proof. vm_compute. repeat split; reflexivity. Qed.

Example d6_no_data :
  let r := review_d6 (U := ascii_unicode) (py "已完成验证工作") in
  has_data r = false /\ d6_passed r = false
  /\ "No validation data provided"%string ∈ d6_issues r.
Proof. vm_compute. repeat split; [reflexivity..|]. right. left. Qed.

Example report_rejected :
  (fun v => (overall_passed v, failed_sections v)) <$>
    review_8d_report (U := ascii_unicode)
      (py "D3 WIP held" ++ [10] ++ py "D4 root cause" ++ [10] ++ py "D8 thanks")
  = Some (false, ["D3"; "D4"; "D5"; "D6"; "D7"]%string).
Proof. vm_compute. reflexivity. Qed.

(** * Further properties of the review engine *)

(** ** Category scan, for any table of distinct names *)

Section ScanResult.
Context `{U : Unicode}.
Variable content : str.
Variable table : list (string * list str).
Hypothesis table_nodup : NoDup (map fst table).

Lemma scan_found :
  true_keys (scan table content).1
  = map fst (List.filter (fun e : string * list str => any_in e.2 content) table).
Proof. by rewrite scan_spec, <- true_keys_scan. Qed.

Lemma scan_missing :
  (scan table content).2
  = map fst (List.filter (fun e : string * list str => negb (any_in e.2 content)) table).
Proof. by rewrite scan_spec. Qed.

Lemma scan_found_iff name :
  name ∈ true_keys (scan table content).1 <->
  exists kws kw, (name, kws) ∈ table /\ kw ∈ kws /\ substring (lower kw) (lower content).
Proof.
  rewrite scan_found, list_elem_of_fmap. split.
  - intros ([name' kws] & -> & He).
    apply list_elem_of_In, filter_In in He as [He Hany]. simpl in Hany.
    apply any_in_spec in Hany as (kw & Hkw & Hsub).
    exists kws, kw. by rewrite list_elem_of_In.
  - intros (kws & kw & He & Hkw & Hsub). exists (name, kws). split; [done|].
    apply list_elem_of_In, filter_In. split; [by apply list_elem_of_In|].
    simpl. apply any_in_spec. eauto.
Qed.

Lemma scan_missing_iff name :
  name ∈ (scan table content).2 <->
  name ∈ map fst table /\ name ∉ true_keys (scan table content).1.
Proof.
  rewrite scan_found, scan_missing, scan_missing_complement by done.
  rewrite list_elem_of_In, filter_In, <- list_elem_of_In.
  by rewrite bool_decide_eq_true.
Qed.

Lemma scan_counts :
  (length (true_keys (scan table content).1) + length (scan table content).2
   = length table)%nat.
Proof.
  rewrite scan_found, scan_missing, !length_map. clear table_nodup.
  induction table as [|e t IH]; simpl; [done|].
  destruct (any_in e.2 content); simpl; lia.
Qed.

Lemma scan_all_found :
  (scan table content).2 = [] -> true_keys (scan table content).1 = map fst table.
Proof.
  rewrite scan_found, scan_missing. clear table_nodup.
  induction table as [|e t IH]; simpl; [done|].
  destruct (any_in e.2 content); simpl; [|done].
  intros H. by rewrite IH.
Qed.

Lemma scan_found_sublist :
  true_keys (scan table content).1 `sublist_of` map fst table.
Proof.
  rewrite scan_found. clear table_nodup.
  induction table as [|e t IH]; simpl; [done|].
  destruct (any_in e.2 content); simpl; by constructor.
Qed.

Lemma scan_missing_sublist :
  (scan table content).2 `sublist_of` map fst table.
Proof.
  rewrite scan_missing. clear table_nodup.
  induction table as [|e t IH]; simpl; [done|].
  destruct (any_in e.2 content); simpl; by constructor.
Qed.

End ScanResult.

Lemma d3_keywords_nodup : NoDup (map fst d3_keywords).
Proof. compute_done. Qed.

Lemma d4_checks_nodup : NoDup (map fst d4_checks).
Proof. compute_done. Qed.

Lemma review_d3_fields `{U : Unicode} content :
  found_locations (review_d3 content) = true_keys (scan d3_keywords content).1
  /\ missing_locations (review_d3 content) = (scan d3_keywords content).2
  /\ d3_passed (review_d3 content)
     = (length (scan d3_keywords content).2 =? 0)%nat.
Proof. unfold review_d3. by destruct (scan d3_keywords content). Qed.

Lemma review_d4_fields `{U : Unicode} content :
  found_analysis (review_d4 content) = true_keys (scan d4_checks content).1
  /\ missing_analysis (review_d4 content) = (scan d4_checks content).2
  /\ d4_passed (review_d4 content)
     = (length (scan d4_checks content).2 =? 0)%nat
  /\ has_system_analysis (review_d4 content) = any_in system_keywords content.
Proof. unfold review_d4. by destruct (scan d4_checks content). Qed.

(** ** D4 *)

(** X1.  D4 passes iff Mechanism, Root Cause and Escape Point are all found,
    each by a keyword of its list occurring in the text as a case-insensitive
    substring; the missing analyses are those of the three that are not
    found; the systemic-analysis flag only changes the comment of a passing
    result. *)
Theorem review_d4_all_analyses `{U : Unicode} (content : str) :
  let r := review_d4 content in
  let checks := ["Mechanism"; "Root Cause"; "Escape Point"]%string in
  (forall name, name ∈ found_analysis r <->
     exists kws kw, (name, kws) ∈ d4_checks /\ kw ∈ kws
                    /\ substring (lower kw) (lower content))
  /\ (d4_passed r = true <-> forall name, name ∈ checks -> name ∈ found_analysis r)
  /\ (forall name, name ∈ missing_analysis r <->
        name ∈ checks /\ name ∉ found_analysis r)
  /\ (has_system_analysis r = true <->
        exists kw, kw ∈ system_keywords /\ substring (lower kw) (lower content))
  /\ (d4_passed r = true ->
        d4_comment r = if has_system_analysis r
                       then "Pass (Bonus: Systemic analysis included)"%string
                       else "Pass"%string)
  /\ (d4_passed r = false ->
        d4_comment r = ("Missing analysis for: " +:+ join ", " (missing_analysis r))%string).
Proof.
  cbv zeta.
  destruct (review_d4_fields content) as (Hf & Hm & Hp & Hs).
  split; [|split; [|split; [|split; [|split]]]].
  - intros name. rewrite Hf. by apply scan_found_iff, d4_checks_nodup.
  - rewrite Hp, Nat.eqb_eq, length_zero_iff_nil. split.
    + intros Hnil name Hname. rewrite Hf, (scan_all_found _ _ d4_checks_nodup Hnil). exact Hname.
    + intros Hall. destruct ((scan d4_checks content).2) as [|name l] eqn:E; [done|].
      assert (name ∈ (scan d4_checks content).2) as Hin by (rewrite E; by left).
      apply (scan_missing_iff _ _ d4_checks_nodup) in Hin as [Hc Hn].
      exfalso. apply Hn. rewrite <- Hf. by apply Hall.
  - intros name. rewrite Hm, Hf. by apply scan_missing_iff, d4_checks_nodup.
  - rewrite Hs. apply any_in_spec.
  - unfold review_d4. destruct (scan d4_checks content) as [found missing].
    cbn [d4_passed d4_comment has_system_analysis]. by intros ->.
  - unfold review_d4. destruct (scan d4_checks content) as [found missing].
    cbn [d4_passed d4_comment missing_analysis]. by intros ->.
Qed.

(** ** Found and missing categories *)

(** X2.  In a D3 result the found and the missing locations split the five
    categories between them, each list in the order of the table; so a D3
    result that passed has found all five, and one that did not has at least
    one location missing.  The same holds for the three analyses of D4. *)
Theorem found_missing_partition `{U : Unicode} (content : str) :
  let r3 := review_d3 content in
  let r4 := review_d4 content in
  let locations :=
    ["WIP"; "In-transit"; "Customer Site"; "Customer Stock"; "Internal Stock"]%string in
  let analyses := ["Mechanism"; "Root Cause"; "Escape Point"]%string in
  (found_locations r3 `sublist_of` locations
   /\ missing_locations r3 `sublist_of` locations
   /\ (length (found_locations r3) + length (missing_locations r3) = 5)%nat
   /\ (forall loc, loc ∈ locations ->
         ((loc ∈ found_locations r3) /\ (loc ∉ missing_locations r3))
         \/ ((loc ∉ found_locations r3) /\ (loc ∈ missing_locations r3)))
   /\ (d3_passed r3 = true -> found_locations r3 = locations)
   /\ (d3_passed r3 = false -> missing_locations r3 <> []))
  /\ (found_analysis r4 `sublist_of` analyses
      /\ missing_analysis r4 `sublist_of` analyses
      /\ (length (found_analysis r4) + length (missing_analysis r4) = 3)%nat
      /\ (forall name, name ∈ analyses ->
            ((name ∈ found_analysis r4) /\ (name ∉ missing_analysis r4))
            \/ ((name ∉ found_analysis r4) /\ (name ∈ missing_analysis r4)))
      /\ (d4_passed r4 = true -> found_analysis r4 = analyses)
      /\ (d4_passed r4 = false -> missing_analysis r4 <> [])).
Proof.
  cbv zeta.
  destruct (review_d3_fields content) as (Hf3 & Hm3 & Hp3).
  destruct (review_d4_fields content) as (Hf4 & Hm4 & Hp4 & _).
  split.
  - rewrite Hf3, Hm3, Hp3.
    split; [apply (scan_found_sublist content d3_keywords d3_keywords_nodup)|].
    split; [apply (scan_missing_sublist content d3_keywords d3_keywords_nodup)|].
    split; [apply (scan_counts content d3_keywords d3_keywords_nodup)|].
    split; [|split].
    + intros loc Hloc.
      destruct (decide (loc ∈ true_keys (scan d3_keywords content).1)) as [Hin|Hout].
      * left. split; [done|].
        rewrite (scan_missing_iff _ _ d3_keywords_nodup). tauto.
      * right. split; [done|].
        by rewrite (scan_missing_iff _ _ d3_keywords_nodup).
    + rewrite Nat.eqb_eq, length_zero_iff_nil. apply (scan_all_found content d3_keywords d3_keywords_nodup).
    + rewrite Nat.eqb_neq, length_zero_iff_nil. done.
  - rewrite Hf4, Hm4, Hp4.
    split; [apply (scan_found_sublist content d4_checks d4_checks_nodup)|].
    split; [apply (scan_missing_sublist content d4_checks d4_checks_nodup)|].
    split; [apply (scan_counts content d4_checks d4_checks_nodup)|].
    split; [|split].
    + intros name Hname.
      destruct (decide (name ∈ true_keys (scan d4_checks content).1)) as [Hin|Hout].
      * left. split; [done|].
        rewrite (scan_missing_iff _ _ d4_checks_nodup). tauto.
      * right. split; [done|].
        by rewrite (scan_missing_iff _ _ d4_checks_nodup).
    + rewrite Nat.eqb_eq, length_zero_iff_nil. apply (scan_all_found content d4_checks d4_checks_nodup).
    + rewrite Nat.eqb_neq, length_zero_iff_nil. done.
Qed.

(** ** Issues of D5, D6 and D7 *)

Lemma issues_comment_not_pass (issues : list string) :
  ("Issues: " +:+ join "; " issues)%string <> "Pass"%string.
Proof. done. Qed.

(** X3.  The D5 flags are keyword tests on the D5 text; the issues list one
    message per flag that is off, in the order measures, owner, deadline; and
    the result passed iff there is no issue iff the comment is "Pass". *)
Theorem review_d5_issues `{U : Unicode} (content d4_content : str) :
  let r := review_d5 content d4_content in
  (has_measures r = true <->
     exists kw, kw ∈ measure_keywords /\ substring (lower kw) (lower content))
  /\ (has_owner r = true <->
        exists kw, kw ∈ owner_keywords /\ substring (lower kw) (lower content))
  /\ (has_deadline r = true <->
        exists kw, kw ∈ deadline_keywords /\ substring (lower kw) (lower content))
  /\ d5_issues r
     = (if has_measures r then [] else ["No specific actions described"%string])
       ++ (if has_owner r then [] else ["Missing owner"%string])
       ++ (if has_deadline r then [] else ["Missing deadline"%string])
  /\ (d5_passed r = true <-> d5_issues r = [])
  /\ (d5_passed r = true <-> d5_comment r = "Pass"%string)
  /\ (d5_passed r = false ->
        d5_comment r = ("Issues: " +:+ join "; " (d5_issues r))%string).
Proof.
  cbv zeta. unfold review_d5.
  cbn [has_measures has_owner has_deadline d5_issues d5_passed d5_comment].
  rewrite <- !any_in_spec.
  split; [done|]. split; [done|]. split; [done|].
  destruct (any_in measure_keywords content), (any_in owner_keywords content),
    (any_in deadline_keywords content); cbn; repeat split; done.
Qed.

(** X4.  The D6 verification flags are keyword tests on the D6 text; the
    issues report a missing verification method (neither production nor
    experiment) and missing data, in that order; and the result passed iff
    there is no issue iff the comment is "Pass". *)
Theorem review_d6_issues `{U : Unicode} (content : str) :
  let r := review_d6 content in
  (has_production_verification r = true <->
     exists kw, kw ∈ production_keywords /\ substring (lower kw) (lower content))
  /\ (has_experiment_verification r = true <->
        exists kw, kw ∈ experiment_keywords /\ substring (lower kw) (lower content))
  /\ d6_issues r
     = (if has_production_verification r || has_experiment_verification r then []
        else ["Validation method not specified (Production or Experiment)"%string])
       ++ (if has_data r then [] else ["No validation data provided"%string])
  /\ (d6_passed r = true <-> d6_issues r = [])
  /\ (d6_passed r = true <-> d6_comment r = "Pass"%string)
  /\ (d6_passed r = false ->
        d6_comment r = ("Issues: " +:+ join "; " (d6_issues r))%string).
Proof.
  cbv zeta. unfold review_d6.
  cbn [has_production_verification has_experiment_verification has_data d6_issues
       d6_passed d6_comment].
  rewrite <- !any_in_spec.
  split; [done|]. split; [done|].
  destruct (any_in production_keywords content), (any_in experiment_keywords content),
    (matched (re_search percent_pattern content) || any_in data_keywords content);
    cbn; repeat split; done.
Qed.

(** X5.  D7 passes iff a document-revision keyword and a training keyword
    both occur in the text as case-insensitive substrings; the issues report
    a missing document revision and a missing training, in that order; and
    the result passed iff there is no issue iff the comment is "Pass". *)
Theorem review_d7_passed `{U : Unicode} (content : str) :
  let r := review_d7 content in
  (has_doc_revision r = true <->
     exists kw, kw ∈ doc_keywords /\ substring (lower kw) (lower content))
  /\ (has_training r = true <->
        exists kw, kw ∈ training_keywords /\ substring (lower kw) (lower content))
  /\ (d7_passed r = true <-> has_doc_revision r = true /\ has_training r = true)
  /\ d7_issues r
     = (if has_doc_revision r then [] else ["Missing document revision"%string])
       ++ (if has_training r then [] else ["Missing training"%string])
  /\ (d7_passed r = true <-> d7_issues r = [])
  /\ (d7_passed r = true <-> d7_comment r = "Pass"%string)
  /\ (d7_passed r = false ->
        d7_comment r = ("Issues: " +:+ join "; " (d7_issues r))%string).
Proof.
  cbv zeta. unfold review_d7.
  cbn [has_doc_revision has_training d7_issues d7_passed d7_comment].
  rewrite <- !any_in_spec.
  split; [done|]. split; [done|].
  destruct (any_in doc_keywords content), (any_in training_keywords content);
    cbn; repeat split; (done || (by intros [? ?])).
Qed.

(** ** Empty sections *)

Lemma contains_in_empty (needle : str) : contains needle [] = negb (nonempty needle).
Proof. by destruct needle. Qed.

Lemma any_in_empty `{U : Unicode} (kws : list str) :
  (forall s, lower s = [] -> s = []) ->
  forallb nonempty kws = true ->
  any_in kws [] = false.
Proof.
  intros Hlow Hkws. unfold any_in.
  rewrite (lower_ascii []) by constructor. cbn [map].
  induction kws as [|kw kws IH]; cbn [existsb forallb] in *; [done|].
  apply andb_true_iff in Hkws as [Hkw Hkws].
  rewrite (IH Hkws), orb_false_r, contains_in_empty.
  destruct (lower kw) eqn:E; [|done].
  apply Hlow in E. by subst kw.
Qed.

Lemma scan_empty `{U : Unicode} (table : list (string * list str)) :
  (forall s, lower s = [] -> s = []) ->
  NoDup (map fst table) ->
  forallb (fun e => forallb nonempty e.2) table = true ->
  true_keys (scan table []).1 = [] /\ (scan table []).2 = map fst table.
Proof.
  intros Hlow Hnd Hne. rewrite scan_found, scan_missing by done.
  clear Hnd. induction table as [|e t IH]; simpl; [done|].
  simpl in Hne. apply andb_true_iff in Hne as [He Hne].
  rewrite (any_in_empty _ Hlow He). simpl.
  destruct (IH Hne) as [-> ->]. done.
Qed.

(** X6.  On an empty section text every evaluator finds nothing: D3 reports
    all five locations missing, D4 all three analyses, D5, D6 and D7 all
    their issues, none of the five passes, and D8 has no summary but passes.
    (The case mapping is assumed not to erase a non-empty string.) *)
Theorem empty_section_fails `{U : Unicode} (d4_content : str) :
  (forall s, lower s = [] -> s = []) ->
  (d3_passed (review_d3 []) = false
   /\ found_locations (review_d3 []) = []
   /\ missing_locations (review_d3 [])
      = ["WIP"; "In-transit"; "Customer Site"; "Customer Stock"; "Internal Stock"]%string)
  /\ (d4_passed (review_d4 []) = false
      /\ found_analysis (review_d4 []) = []
      /\ missing_analysis (review_d4 [])
         = ["Mechanism"; "Root Cause"; "Escape Point"]%string
      /\ has_system_analysis (review_d4 []) = false)
  /\ (d5_passed (review_d5 [] d4_content) = false
      /\ d5_issues (review_d5 [] d4_content)
         = ["No specific actions described"; "Missing owner"; "Missing deadline"]%string)
  /\ (d6_passed (review_d6 []) = false
      /\ has_data (review_d6 []) = false
      /\ d6_issues (review_d6 [])
         = ["Validation method not specified (Production or Experiment)";
            "No validation data provided"]%string)
  /\ (d7_passed (review_d7 []) = false
      /\ d7_issues (review_d7 [])
         = ["Missing document revision"; "Missing training"]%string)
  /\ (d8_passed (review_d8 []) = true /\ has_summary (review_d8 []) = false).
Proof.
  intros Hlow.
  destruct (scan_empty d3_keywords Hlow d3_keywords_nodup eq_refl) as [Hf3 Hm3].
  destruct (scan_empty d4_checks Hlow d4_checks_nodup eq_refl) as [Hf4 Hm4].
  destruct (review_d3_fields []) as (-> & -> & ->).
  destruct (review_d4_fields []) as (-> & -> & -> & ->).
  rewrite Hf3, Hm3, Hf4, Hm4.
  unfold review_d5, review_d6, review_d7, review_d8.
  cbn [d5_passed d5_issues d6_passed has_data d6_issues d7_passed d7_issues
       d8_passed has_summary].
  rewrite !(any_in_empty _ Hlow) by reflexivity.
  repeat split; reflexivity.
Qed.

Lemma ascii_lower_keeps (s : str) : @lower ascii_unicode s = [] -> s = [].
Proof. by destruct s. Qed.

Lemma empty_section_fails_witness :
  (forall s, @lower ascii_unicode s = [] -> s = [])
  /\ d3_passed (review_d3 (U := ascii_unicode) []) = false
  /\ d7_issues (review_d7 (U := ascii_unicode) [])
     = ["Missing document revision"; "Missing training"]%string.
Proof.
  split; [exact ascii_lower_keeps|].
  destruct (empty_section_fails (U := ascii_unicode) [] ascii_lower_keeps)
    as ((H3 & _) & _ & _ & _ & (_ & H7) & _).
  split; [exact H3|exact H7].
Defined.

(** ** More on the matcher: where the continuation is entered *)

Lemma rmatch_cont r :
  forall k st m, rmatch r k st = Some m ->
    exists st', k st' = Some m
      /\ rest st' `suffix_of` rest st
      /\ (groupless r = true -> grp st' = grp st).
Proof.
  induction r as [p| |a IHa b IHb|a IHa b IHb|gr p|a IH|a IH| ]; intros k [s g] m; simpl.
  - destruct s as [|c t]; [done|]. destruct (p c); [|done].
    intros H. eexists. split; [exact H|]. split; [by apply suffix_cons_r|done].
  - intros H. eexists. split; [exact H|]. done.
  - intros H. apply IHa in H as (st1 & H & Hs1 & Hg1).
    apply IHb in H as (st2 & H & Hs2 & Hg2). simpl in *.
    exists st2. split; [done|]. split; [by etrans|].
    intros [Ha Hb]%andb_true_iff. by rewrite Hg2, Hg1.
  - destruct (rmatch a k (MState s g)) eqn:E.
    + intros [= <-]. apply IHa in E as (st' & H & Hs & Hg).
      exists st'. split; [done|]. split; [done|].
      intros [Ha _]%andb_true_iff. by apply Hg.
    + intros H. apply IHb in H as (st' & H & Hs & Hg).
      exists st'. split; [done|]. split; [done|].
      intros [_ Hb]%andb_true_iff. by apply Hg.
  - revert m. induction s as [|c t IHs]; intros m.
    { intros H. eexists. split; [exact H|]. done. }
    assert (forall st', rest st' `suffix_of` t -> rest st' `suffix_of` c :: t) as Hsuf.
    { intros st'. apply suffix_cons_r. }
    destruct (p c).
    2:{ intros H. eexists. split; [exact H|]. done. }
    destruct gr.
    + match goal with |- match ?x with _ => _ end = _ -> _ => destruct x eqn:E end.
      * intros [= <-]. destruct (IHs m0 eq_refl) as (st' & H & Hs & Hg). eauto.
      * intros H. eexists. split; [exact H|]. done.
    + destruct (k (MState (c :: t) g)) eqn:E.
      * intros [= <-]. eexists. split; [exact E|]. done.
      * intros H. apply IHs in H as (st' & H & Hs & Hg). eauto.
  - intros H. apply IH in H as (st' & H & Hs & _). simpl in *.
    eexists. split; [exact H|]. done.
  - destruct (rmatch a Some (MState s g)) as [st'|] eqn:E; [|done].
    apply IH in E as (st'' & [= ->] & _ & Hg). simpl in *.
    intros H. eexists. split; [exact H|]. split; [done|]. exact Hg.
  - destruct s as [|c [|c' t]]; [| |done].
    + intros H. eexists. split; [exact H|]. done.
    + destruct (c =? 10); [|done]. intros H. eexists. split; [exact H|]. done.
Qed.

Lemma re_search_inv r s m :
  re_search r s = Some m ->
  exists suf, suf `suffix_of` s /\ rmatch r Some (MState suf None) = Some m.
Proof.
  induction s as [|c t IH]; simpl.
  - destruct (rmatch r Some (MState [] None)) eqn:E; [|done].
    intros [= <-]. by exists [].
  - destruct (rmatch r Some (MState (c :: t) None)) eqn:E.
    + intros [= <-]. by exists (c :: t).
    + intros H. apply IH in H as (suf & Hsuf & H). exists suf.
      split; [by apply suffix_cons_r|done].
Qed.

Lemma re_search_none r s :
  re_search r s = None <-> forall pre post s', s = pre ++ post -> ~ matches r post s'.
Proof.
  pose proof (re_search_spec r s) as H. destruct (re_search r s); simpl in H.
  - split; [done|]. intros Hno. exfalso.
    destruct (proj1 H eq_refl) as (pre & post & s' & Hs & Hm). by eapply Hno.
  - split; [|done]. intros _ pre post s' Hs Hm.
    assert (false = true) as Hf; [|done]. apply H. eauto.
Qed.

(** The lazy group [(.*?)] stops at the first position from which the rest of
    the pattern matches. *)
Lemma lazy_group_first k s g m :
  rmatch (Group (Star false anychar)) k (MState s g) = Some m ->
  exists i, (i <= length s)%nat
    /\ k (MState (drop i s) (Some (take i s))) = Some m
    /\ forall j, (j < i)%nat -> k (MState (drop j s) (Some (take j s))) = None.
Proof.
  simpl.
  set (k' := fun t : str => k (MState t (Some (take (length s - length t) s)))).
  assert (forall t m,
    (fix loop (s0 : str) : option mstate :=
       match s0 with
       | [] => k' []
       | c :: t0 => if anychar c
                    then match k' s0 with Some m => Some m | None => loop t0 end
                    else k' s0
       end) t = Some m ->
    exists i, (i <= length t)%nat /\ k' (drop i t) = Some m
      /\ forall j, (j < i)%nat -> k' (drop j t) = None) as Hloop.
  { clear m. induction t as [|c t IHt]; intros m.
    - intros H. exists 0%nat. split; [done|]. split; [done|]. lia.
    - unfold anychar at 1. cbv beta iota.
      destruct (k' (c :: t)) eqn:E.
      + intros [= <-]. exists 0%nat. split; [simpl; lia|]. split; [done|]. lia.
      + intros H. apply IHt in H as (i & Hi & Hk & Hmin).
        exists (S i). split; [simpl; lia|]. split; [done|].
        intros [|j] Hj; [done|]. apply Hmin. lia. }
  intros H. apply Hloop in H as (i & Hi & Hk & Hmin).
  assert (forall j, (j <= length s)%nat ->
            k' (drop j s) = k (MState (drop j s) (Some (take j s)))) as Hk'.
  { intros j Hj. unfold k'. rewrite length_drop.
    by replace (length s - (length s - j))%nat with j by lia. }
  exists i. split; [done|]. split; [by rewrite <- Hk'|].
  intros j Hj. rewrite <- Hk' by lia. by apply Hmin.
Qed.

(** ** Label tokens *)

Lemma matches_token label tok s' :
  label <> [] -> token_at label tok -> matches (token label) (tok ++ s') s'.
Proof.
  unfold token_at. intros Hne H. induction H as [|a c label tok Hac H IH]; [done|].
  destruct label as [|a' label].
  - inversion H; subst. simpl. by constructor.
  - change (token (a :: a' :: label)) with (Cat (Chr (lit_nocase a)) (token (a' :: label))).
    simpl. econstructor; [by constructor|]. by apply IH.
Qed.

Lemma matches_token_inv label s s' :
  matches (token label) s s' -> exists tok, s = tok ++ s' /\ token_at label tok.
Proof.
  unfold token_at. revert s. induction label as [|a label IH]; intros s; simpl.
  - inversion 1; subst. by exists [].
  - destruct label as [|a' label].
    + intros (c & -> & Hc)%matches_chr_inv. exists [c]. split; [done|]. by repeat constructor.
    + intros (s1 & (c & -> & Hc)%matches_chr_inv & H)%matches_cat_inv.
      apply IH in H as (tok & -> & Htok). exists (c :: tok). split; [done|].
      by constructor.
Qed.

Lemma matches_anything_to_end s : matches (Group (Star false anychar)) s [].
Proof.
  constructor. rewrite <- (app_nil_r s) at 1. apply matches_star_run.
  by induction s.
Qed.

Lemma section_pattern_matches this next s :
  (exists s', matches (section_pattern this next) s s')
  <-> exists tok post, s = tok ++ post /\ token_at (py this) tok.
Proof.
  split.
  - intros (s' & H). unfold section_pattern in H.
    apply matches_cat_inv in H as (s1 & Htok & _).
    apply matches_token_inv in Htok as (tok & -> & Htok). eauto.
  - intros (tok & post & -> & Htok). exists []. unfold section_pattern.
    destruct (decide (py this = [])) as [E|Hne].
    + rewrite E in *. inversion Htok; subst. simpl.
      econstructor; [constructor|]. econstructor; [constructor|].
      econstructor; [apply matches_anything_to_end|].
      econstructor. apply M_alt_r. constructor.
    + econstructor; [by apply matches_token|].
      econstructor; [constructor|].
      econstructor; [apply matches_anything_to_end|].
      econstructor. apply M_alt_r. constructor.
Qed.

Lemma last_pattern_matches this s :
  (exists s', matches (last_pattern this) s s')
  <-> exists tok post, s = tok ++ post /\ token_at (py this) tok.
Proof.
  split.
  - intros (s' & H). unfold last_pattern in H.
    apply matches_cat_inv in H as (s1 & Htok & _).
    apply matches_token_inv in Htok as (tok & -> & Htok). eauto.
  - intros (tok & post & -> & Htok). exists []. unfold last_pattern.
    destruct (decide (py this = [])) as [E|Hne].
    + rewrite E in *. inversion Htok; subst. simpl.
      econstructor; [constructor|]. econstructor; [constructor|].
      econstructor; [apply matches_anything_to_end|]. constructor.
    + econstructor; [by apply matches_token|].
      econstructor; [constructor|].
      econstructor; [apply matches_anything_to_end|]. constructor.
Qed.

Lemma patterns_match_label pattern section s :
  (pattern, section) ∈ patterns ->
  (exists s', matches pattern s s')
  <-> exists tok post, s = tok ++ post /\ token_at (py section) tok.
Proof.
  intros He. apply list_elem_of_In in He. simpl in He.
  repeat (destruct He as [[= <- <-]|He];
          [first [apply section_pattern_matches|apply last_pattern_matches]|]).
  done.
Qed.

(** X7.  A section gets a match exactly when the token of its label occurs
    somewhere in the document, in either case of the letter; without the
    token the section is the empty string. *)
Theorem section_matched_iff_label (doc_text : str) (pattern : regex) (section : string) :
  (pattern, section) ∈ patterns ->
  (matched (re_search pattern doc_text) = true <->
     exists pre tok post, doc_text = pre ++ tok ++ post /\ token_at (py section) tok)
  /\ ((forall pre tok post, doc_text = pre ++ tok ++ post -> ~ token_at (py section) tok) ->
      section_text pattern doc_text = []).
Proof.
  intros He.
  assert (matched (re_search pattern doc_text) = true <->
     exists pre tok post, doc_text = pre ++ tok ++ post /\ token_at (py section) tok) as Hiff.
  { rewrite re_search_spec. split.
    - intros (pre & rest & s' & -> & Hm).
      destruct (proj1 (patterns_match_label _ _ rest He)) as (tok & post & -> & Htok);
        [eauto|]. by exists pre, tok, post.
    - intros (pre & tok & post & -> & Htok).
      destruct (proj2 (patterns_match_label _ _ (tok ++ post) He)) as (s' & Hm);
        [eauto|]. by exists pre, (tok ++ post), s'. }
  split; [exact Hiff|].
  intros Hno. unfold section_text.
  destruct (re_search pattern doc_text) eqn:E; [|done]. exfalso.
  destruct (proj1 Hiff eq_refl) as (pre & tok & post & Hs & Htok). by eapply Hno.
Qed.

Lemma section_matched_iff_label_witness :
  (section_pattern "D3" "D4", "D3"%string) ∈ patterns
  /\ (matched (re_search (section_pattern "D3" "D4") (py "d3: hold")) = true <->
       exists pre tok post, py "d3: hold" = pre ++ tok ++ post /\ token_at (py "D3") tok).
Proof.
  assert ((section_pattern "D3" "D4", "D3"%string) ∈ patterns) as He.
  { do 2 right. by left. }
  split; [exact He|].
  exact (proj1 (section_matched_iff_label (py "d3: hold") _ _ He)).
Defined.

(** ** The review of a whole document *)

Lemma filter_sublist {A} (f : A -> bool) (l : list A) : List.filter f l `sublist_of` l.
Proof.
  induction l as [|a l IH]; simpl; [done|]. destruct (f a); by constructor.
Qed.

Lemma review_8d_report_unfold `{U : Unicode} (full_text : str) :
  review_8d_report full_text
  = verdict_of
      (list_to_map
         [ ("D3", R3 (review_d3 (section_text (section_pattern "D3" "D4") full_text)));
           ("D4", R4 (review_d4 (section_text (section_pattern "D4" "D5") full_text)));
           ("D5", R5 (review_d5 (section_text (section_pattern "D5" "D6") full_text)
                                (section_text (section_pattern "D4" "D5") full_text)));
           ("D6", R6 (review_d6 (section_text (section_pattern "D6" "D7") full_text)));
           ("D7", R7 (review_d7 (section_text (section_pattern "D7" "D8") full_text)));
           ("D8", R8 (review_d8 (section_text (last_pattern "D8") full_text))) ]%string).
Proof.
  unfold review_8d_report.
  destruct (extract_8d_sections_spec full_text) as (sections & -> & _ & Hval).
  cbn [mbind option_bind].
  rewrite (Hval (section_pattern "D3" "D4") "D3"%string) by (do 2 right; by left).
  rewrite (Hval (section_pattern "D4" "D5") "D4"%string) by (do 3 right; by left).
  rewrite (Hval (section_pattern "D5" "D6") "D5"%string) by (do 4 right; by left).
  rewrite (Hval (section_pattern "D6" "D7") "D6"%string) by (do 5 right; by left).
  rewrite (Hval (section_pattern "D7" "D8") "D7"%string) by (do 6 right; by left).
  rewrite (Hval (last_pattern "D8") "D8"%string) by (do 7 right; by left).
  done.
Qed.

Lemma verdict_of_six (r3 r4 r5 r6 r7 r8 : RuleResult) :
  let reviews : gmap string RuleResult :=
    list_to_map [("D3", r3); ("D4", r4); ("D5", r5); ("D6", r6); ("D7", r7); ("D8", r8)]%string in
  let failed :=
    List.filter (fun lr : string * RuleResult => negb (passed lr.2))
      [("D3", r3); ("D4", r4); ("D5", r5); ("D6", r6); ("D7", r7)]%string in
  verdict_of reviews
  = Some {| verdict := if (length failed =? 0)%nat then py "✅ 8D Report APPROVED"
                       else py "❌ 8D Report REJECTED";
            overall_passed := (length failed =? 0)%nat;
            failed_sections := map fst failed;
            reviews := reviews |}.
Proof.
  cbv zeta. unfold verdict_of.
  rewrite failing_spec.
  2:{ intros l Hl. unfold critical_sections in Hl.
      repeat (apply elem_of_cons in Hl as [->|Hl]; [by eexists|]).
      by apply elem_of_nil in Hl. }
  cbn [mbind option_bind]. unfold critical_sections. cbn [List.filter].
  change ((list_to_map [("D3", r3); ("D4", r4); ("D5", r5); ("D6", r6); ("D7", r7);
                        ("D8", r8)]%string : gmap string RuleResult) !! "D3"%string)
    with (Some r3).
  change ((list_to_map [("D3", r3); ("D4", r4); ("D5", r5); ("D6", r6); ("D7", r7);
                        ("D8", r8)]%string : gmap string RuleResult) !! "D4"%string)
    with (Some r4).
  change ((list_to_map [("D3", r3); ("D4", r4); ("D5", r5); ("D6", r6); ("D7", r7);
                        ("D8", r8)]%string : gmap string RuleResult) !! "D5"%string)
    with (Some r5).
  change ((list_to_map [("D3", r3); ("D4", r4); ("D5", r5); ("D6", r6); ("D7", r7);
                        ("D8", r8)]%string : gmap string RuleResult) !! "D6"%string)
    with (Some r6).
  change ((list_to_map [("D3", r3); ("D4", r4); ("D5", r5); ("D6", r6); ("D7", r7);
                        ("D8", r8)]%string : gmap string RuleResult) !! "D7"%string)
    with (Some r7).
  cbn [snd].
  by destruct (passed r3), (passed r4), (passed r5), (passed r6), (passed r7).
Qed.

Lemma failed_iff (L : list (string * RuleResult)) (l : string) :
  l ∈ map fst (List.filter (fun lr : string * RuleResult => negb (passed lr.2)) L)
  <-> exists r, (l, r) ∈ L /\ passed r = false.
Proof.
  rewrite list_elem_of_fmap. split.
  - intros ([l' r] & -> & Hin). apply list_elem_of_In, filter_In in Hin as [Hin Hp].
    exists r. split; [by apply list_elem_of_In|]. simpl in Hp. by destruct (passed r).
  - intros (r & Hin & Hp). exists (l, r). split; [done|].
    apply list_elem_of_In, filter_In. split; [by apply list_elem_of_In|].
    simpl. by rewrite Hp.
Qed.

(** X8.  The review of a document never raises.  Its six results are those
    of the evaluators on the sections found by the patterns (D5 also being
    handed the D4 section); it passes iff the D3, D4, D5, D6 and D7 results
    all passed, iff no section failed; the failed sections are the critical
    labels whose result did not pass, in the order D3 .. D7, and never D8;
    and the verdict line says APPROVED exactly when it passed. *)
Theorem review_8d_report_total `{U : Unicode} (full_text : str) :
  let r3 := review_d3 (section_text (section_pattern "D3" "D4") full_text) in
  let r4 := review_d4 (section_text (section_pattern "D4" "D5") full_text) in
  let r5 := review_d5 (section_text (section_pattern "D5" "D6") full_text)
                      (section_text (section_pattern "D4" "D5") full_text) in
  let r6 := review_d6 (section_text (section_pattern "D6" "D7") full_text) in
  let r7 := review_d7 (section_text (section_pattern "D7" "D8") full_text) in
  let r8 := review_d8 (section_text (last_pattern "D8") full_text) in
  exists v, review_8d_report full_text = Some v
    /\ reviews v = list_to_map [("D3", R3 r3); ("D4", R4 r4); ("D5", R5 r5);
                                ("D6", R6 r6); ("D7", R7 r7); ("D8", R8 r8)]%string
    /\ (overall_passed v = true <->
          d3_passed r3 = true /\ d4_passed r4 = true /\ d5_passed r5 = true
          /\ d6_passed r6 = true /\ d7_passed r7 = true)
    /\ (overall_passed v = true <-> failed_sections v = [])
    /\ failed_sections v `sublist_of` ["D3"; "D4"; "D5"; "D6"; "D7"]%string
    /\ (forall l, l ∈ failed_sections v <->
          (l = "D3"%string /\ d3_passed r3 = false)
          \/ (l = "D4"%string /\ d4_passed r4 = false)
          \/ (l = "D5"%string /\ d5_passed r5 = false)
          \/ (l = "D6"%string /\ d6_passed r6 = false)
          \/ (l = "D7"%string /\ d7_passed r7 = false))
    /\ verdict v = (if overall_passed v then py "✅ 8D Report APPROVED"
                    else py "❌ 8D Report REJECTED").
Proof.
  cbv zeta. rewrite review_8d_report_unfold, verdict_of_six.
  eexists. split; [reflexivity|].
  cbn [reviews overall_passed failed_sections verdict]. split; [reflexivity|].
  split; [|split; [|split; [|split]]].
  - cbn [List.filter snd passed].
    set (b3 := d3_passed _). set (b4 := d4_passed _). set (b5 := d5_passed _).
    set (b6 := d6_passed _). set (b7 := d7_passed _).
    by destruct b3, b4, b5, b6, b7; cbn; split; (done || (intros (? & ? & ? & ? & ?); done)).
  - cbn [List.filter snd passed].
    set (b3 := d3_passed _). set (b4 := d4_passed _). set (b5 := d5_passed _).
    set (b6 := d6_passed _). set (b7 := d7_passed _).
    by destruct b3, b4, b5, b6, b7.
  - match goal with |- map fst (List.filter ?f ?L) `sublist_of` _ =>
      change (map fst (List.filter f L) `sublist_of` map fst L) end.
    apply fmap_sublist, filter_sublist.
  - intros l.
    match goal with |- l ∈ map fst (List.filter ?f ?L) <-> _ =>
      rewrite (failed_iff L l) end.
    split.
    + intros (r & Hin & Hp). apply list_elem_of_In in Hin. simpl in Hin.
      repeat (destruct Hin as [[= <- <-]|Hin]; [cbn [passed] in Hp; tauto|]). done.
    + intros [[-> H]|[[-> H]|[[-> H]|[[-> H]|[-> H]]]]].
      * eexists (R3 _). split; [|exact H]. apply list_elem_of_In. simpl. tauto.
      * eexists (R4 _). split; [|exact H]. apply list_elem_of_In. simpl. tauto.
      * eexists (R5 _). split; [|exact H]. apply list_elem_of_In. simpl. tauto.
      * eexists (R6 _). split; [|exact H]. apply list_elem_of_In. simpl. tauto.
      * eexists (R7 _). split; [|exact H]. apply list_elem_of_In. simpl. tauto.
  - done.
Qed.

(** ** Documents without labels *)

Lemma token_at_head (a : N) (label tok : str) :
  token_at (a :: label) tok -> exists c tok', tok = c :: tok' /\ lit_nocase a c = true.
Proof. unfold token_at. inversion 1; subst. eauto. Qed.

Lemma lit_nocase_D c : lit_nocase 68 c = true -> c = 68 \/ c = 100.
Proof.
  unfold lit_nocase, ascii_lower_char. simpl.
  destruct ((65 <=? c) && (c <=? 90)) eqn:E; rewrite N.eqb_eq; lia.
Qed.

Lemma unlabelled_section_text (doc_text : str) pattern section :
  68 ∉ doc_text -> 100 ∉ doc_text ->
  (pattern, section) ∈ patterns -> section_text pattern doc_text = [].
Proof.
  intros HD Hd He. unfold section_text.
  destruct (re_search pattern doc_text) eqn:E; [|done]. exfalso.
  assert (matched (re_search pattern doc_text) = true) as Hm by by rewrite E.
  apply re_search_spec in Hm as (pre & post & s' & -> & Hm).
  destruct (proj1 (patterns_match_label _ _ post He)) as (tok & post' & -> & Htok);
    [eauto|].
  assert (exists l, py section = 68 :: l) as [l El].
  { apply list_elem_of_In in He. simpl in He.
    repeat (destruct He as [[= <- <-]|He]; [by eexists|]). done. }
  rewrite El in Htok. apply token_at_head in Htok as (c & tok' & -> & Hc).
  apply lit_nocase_D in Hc as [-> | ->].
  - apply HD. rewrite !elem_of_app. right. left. by left.
  - apply Hd. rewrite !elem_of_app. right. left. by left.
Qed.

(** X9.  A document with no letter D, capital or small, has no label; all
    its sections are empty, and its review is rejected with all five critical
    sections failed.  (The case mapping is assumed not to erase a non-empty
    string.) *)
Theorem unlabelled_document_rejected `{U : Unicode} (full_text : str) :
  (forall s, lower s = [] -> s = []) ->
  68 ∉ full_text -> 100 ∉ full_text ->
  (forall pattern section, (pattern, section) ∈ patterns ->
     section_text pattern full_text = [])
  /\ exists v, review_8d_report full_text = Some v
       /\ overall_passed v = false
       /\ failed_sections v = ["D3"; "D4"; "D5"; "D6"; "D7"]%string
       /\ verdict v = py "❌ 8D Report REJECTED".
Proof.
  intros Hlow HD Hd.
  assert (forall pattern section, (pattern, section) ∈ patterns ->
            section_text pattern full_text = []) as Hempty.
  { intros pattern section. by apply unlabelled_section_text. }
  split; [exact Hempty|].
  rewrite review_8d_report_unfold.
  rewrite (Hempty (section_pattern "D3" "D4") "D3"%string) by (do 2 right; by left).
  rewrite (Hempty (section_pattern "D4" "D5") "D4"%string) by (do 3 right; by left).
  rewrite (Hempty (section_pattern "D5" "D6") "D5"%string) by (do 4 right; by left).
  rewrite (Hempty (section_pattern "D6" "D7") "D6"%string) by (do 5 right; by left).
  rewrite (Hempty (section_pattern "D7" "D8") "D7"%string) by (do 6 right; by left).
  rewrite (Hempty (last_pattern "D8") "D8"%string) by (do 7 right; by left).
  rewrite verdict_of_six. eexists. split; [reflexivity|].
  cbn [overall_passed failed_sections verdict List.filter snd passed].
  destruct (scan_empty d3_keywords Hlow d3_keywords_nodup eq_refl) as [_ Hm3].
  destruct (scan_empty d4_checks Hlow d4_checks_nodup eq_refl) as [_ Hm4].
  destruct (review_d3_fields []) as (_ & _ & ->).
  destruct (review_d4_fields []) as (_ & _ & -> & _).
  rewrite Hm3, Hm4.
  unfold review_d5, review_d6, review_d7. cbn [d5_passed d6_passed d7_passed].
  rewrite !(any_in_empty _ Hlow) by reflexivity.
  done.
Qed.

Lemma unlabelled_document_rejected_witness :
  (forall s, @lower ascii_unicode s = [] -> s = [])
  /\ (68 ∉ py "WIP is kept; root cause is known")
  /\ (100 ∉ py "WIP is kept; root cause is known")
  /\ exists v, review_8d_report (U := ascii_unicode) (py "WIP is kept; root cause is known") = Some v
       /\ overall_passed v = false
       /\ failed_sections v = ["D3"; "D4"; "D5"; "D6"; "D7"]%string.
Proof.
  assert (68 ∉ py "WIP is kept; root cause is known") as HD by compute_done.
  assert (100 ∉ py "WIP is kept; root cause is known") as Hd by compute_done.
  split; [exact ascii_lower_keeps|]. split; [exact HD|]. split; [exact Hd|].
  destruct (unlabelled_document_rejected (U := ascii_unicode) _ ascii_lower_keeps HD Hd)
    as (_ & v & Hv & Ho & Hf & _).
  exists v. split; [exact Hv|]. split; [exact Ho|exact Hf].
Defined.

(** ** Stripping, as a cut of the string *)

Lemma lstrip_suffix s : lstrip s `suffix_of` s.
Proof.
  induction s as [|c t IH]; simpl; [done|].
  destruct (isspace c); [by apply suffix_cons_r|done].
Qed.

Lemma rstrip_prefix s : rstrip s `prefix_of` s.
Proof.
  unfold rstrip. destruct (lstrip_suffix (reverse s)) as [k Hk].
  exists (reverse k). apply (f_equal reverse) in Hk.
  by rewrite reverse_involutive, reverse_app in Hk.
Qed.

Lemma strip_substring s : exists a b, s = a ++ strip s ++ b.
Proof.
  unfold strip. destruct (lstrip_suffix s) as [a Ha].
  destruct (rstrip_prefix (lstrip s)) as [b Hb].
  exists a, b. by rewrite <- Hb.
Qed.

Lemma lstrip_id s : (forall c, head s = Some c -> isspace c = false) -> lstrip s = s.
Proof. destruct s as [|c t]; simpl; [done|]. intros H. by rewrite (H c). Qed.

Lemma lstrip_snoc s c : isspace c = false -> lstrip (s ++ [c]) = lstrip s ++ [c].
Proof.
  intros Hc. induction s as [|a s IH]; simpl; [by rewrite Hc|].
  by destruct (isspace a).
Qed.

Lemma strip_head s c : head (strip s) = Some c -> isspace c = false.
Proof.
  unfold strip, rstrip. destruct (lstrip s) as [|a t] eqn:E; [done|].
  pose proof (lstrip_head _ _ _ E) as Ha.
  rewrite reverse_cons, lstrip_snoc, reverse_app by done. simpl.
  by intros [= <-].
Qed.

Lemma strip_last s c : last (strip s) = Some c -> isspace c = false.
Proof.
  unfold strip, rstrip. rewrite last_reverse.
  destruct (lstrip (reverse (lstrip s))) as [|a t] eqn:E; [done|].
  simpl. intros [= <-]. by eapply lstrip_head.
Qed.

Lemma strip_fixed s :
  (forall c, head s = Some c -> isspace c = false) ->
  (forall c, last s = Some c -> isspace c = false) ->
  strip s = s.
Proof.
  intros Hh Hl. unfold strip. rewrite (lstrip_id s Hh). unfold rstrip.
  rewrite lstrip_id; [by rewrite reverse_involutive|].
  intros c. rewrite head_reverse. apply Hl.
Qed.

Lemma strip_idemp s : strip (strip s) = strip s.
Proof. apply strip_fixed; [apply strip_head|apply strip_last]. Qed.

(** ** What a section captures *)

Lemma rmatch_cat a b k st : rmatch (Cat a b) k st = rmatch a (rmatch b k) st.
Proof. reflexivity. Qed.

Lemma token_groupless label : groupless (token label) = true.
Proof.
  induction label as [|a [|a' label] IH]; [done..|].
  change (token (a :: a' :: label)) with (Cat (Chr (lit_nocase a)) (token (a' :: label))).
  simpl. exact IH.
Qed.

Lemma matches_token_at label tok s' :
  token_at label tok -> matches (token label) (tok ++ s') s'.
Proof.
  destruct label as [|a label].
  - inversion 1; subst. constructor.
  - by apply matches_token.
Qed.

(** The group of a section pattern is a piece of the document that starts at
    no heading of the next label and has none inside. *)
Lemma section_pattern_capture this next doc_text m :
  re_search (section_pattern this next) doc_text = Some m ->
  exists s2 i, s2 `suffix_of` doc_text /\ (i <= length s2)%nat
    /\ grp m = Some (take i s2)
    /\ forall j d post, (j < i)%nat -> drop j s2 = d ++ post -> ~ heading_at (py next) d.
Proof.
  intros H. apply re_search_inv in H as (suf & Hsuf & H).
  unfold section_pattern in H. rewrite rmatch_cat in H.
  apply rmatch_cont in H as (st1 & H & Hs1 & _). rewrite rmatch_cat in H.
  apply rmatch_cont in H as ([s2 g2] & H & Hs2 & _). rewrite rmatch_cat in H.
  simpl in Hs1, Hs2.
  apply lazy_group_first in H as (i & Hi & H & Hmin).
  exists s2, i. split; [by do 2 (etrans; [done|])|]. split; [done|].
  set (L := Alt (Cat (token (py next)) (Chr sep_chars)) Eos) in *.
  assert (groupless L = true) as HL.
  { subst L. simpl. by rewrite token_groupless. }
  split.
  - change (rmatch (Ahead L) Some ?st) with
      (match rmatch L Some st with
       | Some st' => Some (MState (rest st) (grp st'))
       | None => None
       end) in H.
    destruct (rmatch L Some _) as [st'|] eqn:E; [|done].
    apply rmatch_cont in E as (st'' & [= ->] & _ & Hg).
    injection H as <-. simpl. by apply Hg.
  - intros j d post Hj Hd (tok & c & -> & Htok & Hc).
    specialize (Hmin j Hj).
    change (rmatch (Ahead L) Some ?st) with
      (match rmatch L Some st with
       | Some st' => Some (MState (rest st) (grp st'))
       | None => None
       end) in Hmin.
    destruct (rmatch L Some _) as [st'|] eqn:E; [done|].
    assert (matches L (drop j s2) post) as Hm.
    { rewrite Hd, <- app_assoc. subst L. apply M_alt_l.
      econstructor; [by apply matches_token_at|]. simpl. by constructor. }
    destruct (rmatch_complete L _ _ Hm Some (Some (take j s2))) as [x Hx]; [by eexists|].
    congruence.
Qed.

Lemma last_pattern_capture this doc_text m :
  re_search (last_pattern this) doc_text = Some m ->
  exists s2 i, s2 `suffix_of` doc_text /\ (i <= length s2)%nat /\ grp m = Some (take i s2).
Proof.
  intros H. apply re_search_inv in H as (suf & Hsuf & H).
  unfold last_pattern in H. rewrite rmatch_cat in H.
  apply rmatch_cont in H as (st1 & H & Hs1 & _). rewrite rmatch_cat in H.
  apply rmatch_cont in H as ([s2 g2] & H & Hs2 & _). rewrite rmatch_cat in H.
  simpl in Hs1, Hs2.
  apply lazy_group_first in H as (i & Hi & H & _).
  exists s2, i. split; [by do 2 (etrans; [done|])|]. split; [done|].
  apply rmatch_cont in H as (st' & [= <-] & _ & Hg). simpl in Hg. by apply Hg.
Qed.

Lemma take_substring {A} (i : nat) (s2 doc : list A) :
  s2 `suffix_of` doc -> exists a b, doc = a ++ take i s2 ++ b.
Proof.
  intros [a ->]. exists a, (drop i s2). by rewrite take_drop.
Qed.

Lemma substring_trans (a b c : str) : substring a b -> substring b c -> substring a c.
Proof.
  intros (p1 & q1 & ->) (p2 & q2 & ->). exists (p2 ++ p1), (q1 ++ q2).
  by rewrite <- !app_assoc.
Qed.

Lemma section_text_substring pattern section doc_text :
  (pattern, section) ∈ patterns -> substring (section_text pattern doc_text) doc_text.
Proof.
  intros He. unfold section_text.
  destruct (re_search pattern doc_text) as [m|] eqn:E; [|by exists [], doc_text].
  assert (exists s2 i, s2 `suffix_of` doc_text /\ grp m = Some (take i s2))
    as (s2 & i & Hsuf & ->).
  { apply list_elem_of_In in He. simpl in He.
    repeat (destruct He as [[= <- <-]|He];
      [first [apply section_pattern_capture in E as (s2 & i & ? & ? & ? & _)
             |apply last_pattern_capture in E as (s2 & i & ? & ? & ?)]; eauto|]).
    done. }
  simpl. apply (substring_trans _ (take i s2)).
  - destruct (strip_substring (take i s2)) as (a & b & Hab). by exists a, b.
  - by apply take_substring.
Qed.

Lemma heading_nonempty label d : heading_at label d -> d <> [].
Proof. intros (tok & c & -> & _). by destruct tok. Qed.

(** X10.  A section never runs into the heading of the next label: the text
    kept under a label holds no occurrence of the next label's token (in
    either case) followed by a separator character.  The overrun of a section
    happens only where that heading is absent. *)
Theorem section_stops_at_next_heading (doc_text : str) (this next section : string) :
  (section_pattern this next, section) ∈ patterns ->
  exists sections : gmap string str,
    extract_8d_sections doc_text = Some sections
    /\ exists v, sections !! section = Some v
         /\ forall d, heading_at (py next) d -> ~ substring d v.
Proof.
  intros He.
  destruct (extract_8d_sections_spec doc_text) as (sections & H & _ & Hval).
  exists sections. split; [done|]. eexists. split; [by apply Hval|].
  intros d Hd (pre & post & Hv). unfold section_text in Hv.
  destruct (re_search (section_pattern this next) doc_text) as [m|] eqn:E.
  2:{ apply heading_nonempty in Hd. symmetry in Hv.
      apply app_eq_nil in Hv as [_ Hv]. by apply app_eq_nil in Hv as [Hv _]. }
  apply section_pattern_capture in E as (s2 & i & _ & Hi & Hg & Hmin).
  rewrite Hg in Hv. simpl in Hv.
  destruct (strip_substring (take i s2)) as (a & b & Hab). rewrite Hv in Hab.
  assert (length (take i s2) = i) as Hlen by (rewrite length_take; lia).
  apply (Hmin (length (a ++ pre)) d (post ++ b ++ drop i s2)); [| |done].
  - rewrite Hab, !length_app in Hlen.
    apply heading_nonempty in Hd. destruct d; [done|]. simpl in Hlen.
    rewrite length_app. lia.
  - rewrite <- (take_drop i s2) at 1. rewrite Hab.
    replace ((a ++ (pre ++ d ++ post) ++ b) ++ drop i s2)
      with ((a ++ pre) ++ d ++ post ++ b ++ drop i s2) by (by rewrite <- !app_assoc).
    by rewrite drop_app_length.
Qed.

Lemma section_stops_at_next_heading_witness :
  (section_pattern "D3" "D4", "D3"%string) ∈ patterns
  /\ exists sections : gmap string str,
       extract_8d_sections (py "D3 hold lots. d4: root cause") = Some sections
       /\ exists v, sections !! "D3"%string = Some v
            /\ forall d, heading_at (py "D4") d -> ~ substring d v.
Proof.
  assert ((section_pattern "D3" "D4", "D3"%string) ∈ patterns) as He.
  { do 2 right. by left. }
  split; [exact He|].
  exact (section_stops_at_next_heading (py "D3 hold lots. d4: root cause") _ _ _ He).
Defined.

(** X11.  Every section the segmenter returns is a piece of the document as
    it stands there (a contiguous substring), with no whitespace at either
    end. *)
Theorem sections_are_trimmed_pieces (doc_text : str) :
  exists sections : gmap string str,
    extract_8d_sections doc_text = Some sections
    /\ forall label v, sections !! label = Some v ->
         substring v doc_text
         /\ strip v = v
         /\ (forall c, head v = Some c -> isspace c = false)
         /\ (forall c, last v = Some c -> isspace c = false).
Proof.
  destruct (extract_8d_sections_spec doc_text) as (sections & H & Hdom & Hval).
  exists sections. split; [done|]. intros label v Hv.
  assert (exists pattern, (pattern, label) ∈ patterns) as [pattern He].
  { assert (label ∈ dom sections) as Hin by (apply elem_of_dom; by eexists).
    rewrite Hdom in Hin.
    assert (label ∈ map snd patterns) as Hl.
    { revert Hin. rewrite patterns_labels. unfold empty_sections.
      rewrite dom_list_to_map_L, elem_of_list_to_set. done. }
    apply list_elem_of_fmap in Hl as ([p l] & -> & Hl). by exists p. }
  rewrite (Hval _ _ He) in Hv. injection Hv as <-.
  split; [by eapply section_text_substring|].
  assert (exists x, section_text pattern doc_text = strip x) as [x ->].
  { unfold section_text. destruct (re_search pattern doc_text); [by eexists|].
    by exists []. }
  split; [apply strip_idemp|]. split; [apply strip_head|apply strip_last].
Qed.

(** ** Lines in normal form *)

Lemma last_cons_cons {A} (a b : A) l : last (a :: b :: l) = last (b :: l).
Proof. done. Qed.

Lemma collapse_from_wellspaced x :
  (forall c, last x = Some c -> isspace c = false) ->
  (x <> [] -> wellspaced true (collapse_from true x) = true)
  /\ wellspaced false (collapse_from false x) = true.
Proof.
  induction x as [|c t IH]; intros Hlast; [done|].
  assert (forall c', last t = Some c' -> isspace c' = false) as Ht.
  { intros c' Hc'. apply Hlast. destruct t; [done|]. by rewrite last_cons_cons. }
  destruct (IH Ht) as [IHa IHb]. simpl.
  destruct (isspace c) eqn:Hc.
  - assert (t <> []) as Hne.
    { intros ->. specialize (Hlast c eq_refl). congruence. }
    split; [intros _; by apply IHa|].
    simpl. by rewrite IHa.
  - simpl. by rewrite Hc.
Qed.

Lemma collapse_strip_wellspaced x :
  nonempty (collapse_ws (strip x)) = true ->
  wellspaced true (collapse_ws (strip x)) = true.
Proof.
  unfold collapse_ws. destruct (strip x) as [|c t] eqn:E; [done|]. intros _.
  assert (isspace c = false) as Hc by (apply (strip_head x); by rewrite E).
  assert (forall c', last t = Some c' -> isspace c' = false) as Ht.
  { intros c' Hc'. apply (strip_last x). rewrite E. destruct t; [done|].
    by rewrite last_cons_cons. }
  simpl. rewrite Hc. simpl. rewrite Hc. by apply collapse_from_wellspaced.
Qed.

Lemma wellspaced_head s c : wellspaced true s = true -> head s = Some c -> isspace c = false.
Proof.
  destruct s as [|a t]; simpl; [done|]. intros H [= <-].
  destruct (isspace a); [|done]. by rewrite andb_false_r in H.
Qed.

Lemma wellspaced_last b s c :
  wellspaced b s = true -> last s = Some c -> isspace c = false.
Proof.
  revert b. induction s as [|a t IH]; intros b; [done|].
  destruct t as [|a' t].
  - simpl. intros H [= ?]. subst. destruct (isspace c); [|done].
    by rewrite andb_false_r in H.
  - rewrite last_cons_cons. intros H. cbn [wellspaced] in H.
    destruct (isspace a).
    + apply andb_true_iff in H as [_ H]. exact (IH _ H).
    + exact (IH _ H).
Qed.

Lemma wellspaced_collapse b r s :
  wellspaced b s = true -> (r = true -> b = true) -> collapse_from r s = s.
Proof.
  revert b r. induction s as [|c t IH]; intros b r; simpl; [done|].
  destruct (isspace c) eqn:Hc.
  - intros [[Hc32 Hb]%andb_true_iff Ht]%andb_true_iff Hr.
    apply N.eqb_eq in Hc32 as ->. destruct b; [done|].
    destruct r; [by discriminate Hr|]. by rewrite (IH true true).
  - intros Ht _. by rewrite (IH false false).
Qed.

Lemma wellspaced_fixed s :
  wellspaced true s = true -> strip s = s /\ collapse_ws s = s /\ nonempty s = true.
Proof.
  intros H. split; [|split].
  - apply strip_fixed; intros c; [by apply wellspaced_head|by apply (wellspaced_last true)].
  - by apply (wellspaced_collapse true false).
  - by destruct s.
Qed.

Lemma wellspaced_spaces b s c :
  wellspaced b s = true -> c ∈ s -> isspace c = true -> c = 32.
Proof.
  revert b. induction s as [|a t IH]; intros b H Hin Hc; [by apply elem_of_nil in Hin|].
  simpl in H. apply elem_of_cons in Hin as [->|Hin].
  - rewrite Hc in H. apply andb_true_iff in H as [[H _]%andb_true_iff _].
    by apply N.eqb_eq in H.
  - destruct (isspace a).
    + apply andb_true_iff in H as [_ H]. by eapply IH.
    + by eapply IH.
Qed.

Lemma wellspaced_no_double b s a1 a2 :
  wellspaced b s = true -> s <> a1 ++ 32 :: 32 :: a2.
Proof.
  revert b a1. induction s as [|c t IH]; intros b a1 H E.
  { by destruct a1. }
  simpl in H. destruct a1 as [|x a1]; simpl in E.
  - injection E as -> ->. simpl in H. by rewrite andb_false_r in H.
  - injection E as -> E. destruct (isspace x).
    + apply andb_true_iff in H as [_ H]. by eapply IH.
    + by eapply IH.
Qed.

Lemma wellspaced_app b s t :
  wellspaced b s = true -> wellspaced false t = true -> wellspaced b (s ++ t) = true.
Proof.
  revert b. induction s as [|c s IH]; intros b; simpl.
  { by destruct b. }
  destruct (isspace c).
  - intros [Hc Hs]%andb_true_iff Ht. by rewrite Hc, (IH true).
  - intros Hs Ht. by apply IH.
Qed.

Lemma wellspaced_cut b q r :
  wellspaced b (q ++ r) = true -> q <> [] ->
  (forall c, last q = Some c -> isspace c = false) ->
  wellspaced b q = true.
Proof.
  revert b. induction q as [|c q IH]; intros b H Hne Hlast; [done|].
  simpl in *.
  assert (forall c', last q = Some c' -> isspace c' = false) as Hq.
  { intros c' Hc'. apply Hlast. destruct q; [done|]. by rewrite last_cons_cons. }
  destruct (isspace c) eqn:Hc.
  - apply andb_true_iff in H as [Hb H]. rewrite Hb. simpl.
    apply IH; [done| |done]. intros ->. specialize (Hlast c eq_refl). congruence.
  - destruct q as [|c' q]; [done|]. by apply IH.
Qed.

Lemma rstrip_last s c : last (rstrip s) = Some c -> isspace c = false.
Proof.
  unfold rstrip. rewrite last_reverse.
  destruct (lstrip (reverse s)) as [|a t] eqn:E; [done|].
  simpl. intros [= <-]. by eapply lstrip_head.
Qed.

Lemma linebreak_is_space c : is_linebreak c = true -> isspace c = true /\ c <> 32.
Proof.
  unfold is_linebreak. rewrite !orb_true_iff, !andb_true_iff, !N.leb_le, !N.eqb_eq.
  intros H.
  assert (c = 10 \/ c = 11 \/ c = 12 \/ c = 13 \/ c = 28 \/ c = 29 \/ c = 30
          \/ c = 133 \/ c = 8232 \/ c = 8233) as Hc by lia.
  clear H. repeat (destruct Hc as [->|Hc]; [by split|]). by subst c.
Qed.

Lemma wellspaced_no_linebreak b s c :
  wellspaced b s = true -> c ∈ s -> is_linebreak c = false.
Proof.
  intros H Hin. destruct (is_linebreak c) eqn:E; [|done].
  apply linebreak_is_space in E as [Hs Hne].
  by apply (wellspaced_spaces b s c H Hin) in Hs.
Qed.

(** ** The selected line *)

Lemma fold_best_first {A} (key : A -> Z) (t : list A) :
  forall pre0 x0 mid,
    (forall y, y ∈ pre0 -> (key y < key x0)%Z) ->
    (forall y, y ∈ mid -> (key y <= key x0)%Z) ->
    exists pre post,
      pre0 ++ x0 :: mid ++ t
      = pre ++ fold_left (fun best y => if (key best <? key y)%Z then y else best) t x0
            :: post
      /\ (forall y, y ∈ pre ->
            (key y < key (fold_left (fun best y => if (key best <? key y)%Z then y else best)
                                    t x0))%Z)
      /\ (forall y, y ∈ post ->
            (key y <= key (fold_left (fun best y => if (key best <? key y)%Z then y else best)
                                     t x0))%Z).
Proof.
  induction t as [|z t IH]; intros pre0 x0 mid Hpre Hmid; simpl.
  { exists pre0, mid. by rewrite app_nil_r. }
  destruct (key x0 <? key z)%Z eqn:E.
  - apply Z.ltb_lt in E.
    destruct (IH (pre0 ++ x0 :: mid) z []) as (pre & post & Heq & H1 & H2).
    + intros y [Hy|[->|Hy]%elem_of_cons]%elem_of_app; [|done|].
      * specialize (Hpre y Hy). lia.
      * specialize (Hmid y Hy). lia.
    + by intros y Hy%elem_of_nil.
    + exists pre, post. split; [|done]. rewrite <- Heq. by rewrite <- !app_assoc.
  - apply Z.ltb_ge in E.
    destruct (IH pre0 x0 (mid ++ [z])) as (pre & post & Heq & H1 & H2).
    + done.
    + intros y [Hy| ->%list_elem_of_singleton]%elem_of_app; [by apply Hmid|done].
    + exists pre, post. split; [|done]. rewrite <- Heq. by rewrite <- !app_assoc.
Qed.

Lemma py_max_first {A} (key : A -> Z) (l : list A) (x : A) :
  py_max key l = Some x ->
  exists pre post, l = pre ++ x :: post
    /\ (forall y, y ∈ pre -> (key y < key x)%Z)
    /\ (forall y, y ∈ post -> (key y <= key x)%Z).
Proof.
  destruct l as [|x0 t]; simpl; [done|]. intros [= <-].
  destruct (fold_best_first key t [] x0 []) as (pre & post & Heq & H1 & H2).
  - by intros y Hy%elem_of_nil.
  - by intros y Hy%elem_of_nil.
  - by exists pre, post.
Qed.

Section SnippetChoice.
Context `{U : Unicode}.

Lemma candidates_sub text ln : ln ∈ candidates text -> ln ∈ raw_lines text.
Proof.
  unfold candidates.
  destruct (nonempty (List.filter _ (raw_lines text))); cbn [negb]; [|done].
  intros H. by apply list_elem_of_In, filter_In in H as [H%list_elem_of_In _].
Qed.

Lemma candidates_nonempty text :
  nonempty (raw_lines text) = true -> nonempty (candidates text) = true.
Proof.
  unfold candidates. intros H.
  by destruct (List.filter _ (raw_lines text)).
Qed.

Lemma candidates_content text ln :
  ln ∈ raw_lines text -> is_heading_like ln = false ->
  candidates text = List.filter (fun ln => negb (is_heading_like ln)) (raw_lines text).
Proof.
  intros Hin Hh. unfold candidates.
  destruct (List.filter _ (raw_lines text)) as [|x l] eqn:E; [|done].
  assert (In ln (List.filter (fun ln => negb (is_heading_like ln)) (raw_lines text))) as H.
  { apply filter_In. split; [by apply list_elem_of_In|by rewrite Hh]. }
  by rewrite E in H.
Qed.

(** With a non-blank line in the text, the selector returns the first of the
    best-scoring candidates, cut to [max_len] when longer. *)
Lemma snippet_selected text max_len kws :
  nonempty (raw_lines text) = true ->
  exists snippet,
    py_max (score kws) (candidates text) = Some snippet
    /\ extract_evidence_snippet text max_len kws =
         Some (if (max_len <? Z.of_nat (length snippet))%Z
               then rstrip (slice_to (max_len - 3) snippet) ++ py "..."
               else snippet).
Proof.
  intros Hne. unfold extract_evidence_snippet.
  destruct (raw_lines_text_nonblank text Hne) as [-> ->].
  cbv zeta. rewrite Hne. cbn [negb orb].
  fold (candidates text).
  destruct (py_max_nonempty (score kws) (candidates text) (candidates_nonempty _ Hne))
    as [snippet Hmax].
  exists snippet. split; [done|]. rewrite Hmax. cbn [mbind option_bind].
  destruct (raw_lines_nonblank text snippet) as [-> ->].
  { by apply candidates_sub, py_max_elem with (key := score kws). }
  cbn [negb orb]. by destruct (_ <? _)%Z.
Qed.

End SnippetChoice.

(** X12.  Headings give way to content: when some non-blank line of the
    section is not heading-like, the line the selector answers with (cut to
    [max_len] when longer) is not heading-like either. *)
Theorem snippet_prefers_content `{U : Unicode} (text : str) (max_len : Z)
    (kws : option (list str)) (ln : str) :
  ln ∈ raw_lines text -> is_heading_like ln = false ->
  exists snippet,
    snippet ∈ raw_lines text /\ is_heading_like snippet = false
    /\ extract_evidence_snippet text max_len kws =
         Some (if (max_len <? Z.of_nat (length snippet))%Z
               then rstrip (slice_to (max_len - 3) snippet) ++ py "..."
               else snippet).
Proof.
  intros Hin Hh.
  assert (nonempty (raw_lines text) = true) as Hne.
  { destruct (raw_lines text); [by apply elem_of_nil in Hin|done]. }
  destruct (snippet_selected text max_len kws Hne) as (snippet & Hmax & Hres).
  exists snippet. apply py_max_elem in Hmax.
  rewrite (candidates_content text ln Hin Hh) in Hmax.
  apply list_elem_of_In, filter_In in Hmax as [Hraw Hnh].
  split; [by apply list_elem_of_In|]. split; [by destruct (is_heading_like snippet)|done].
Qed.

Lemma snippet_prefers_content_witness :
  let text := py "Root Cause:" ++ [10]
              ++ py "CPK improved from 0.8 to 1.5 after fixture upgrade" in
  let ln := py "CPK improved from 0.8 to 1.5 after fixture upgrade" in
  (ln ∈ raw_lines text)
  /\ is_heading_like (U := ascii_unicode) ln = false
  /\ exists snippet,
       snippet ∈ raw_lines text /\ is_heading_like (U := ascii_unicode) snippet = false
       /\ extract_evidence_snippet (U := ascii_unicode) text 160 None =
            Some (if (160 <? Z.of_nat (length snippet))%Z
                  then rstrip (slice_to (160 - 3) snippet) ++ py "..."
                  else snippet).
Proof.
  cbv zeta.
  assert (py "CPK improved from 0.8 to 1.5 after fixture upgrade"
          ∈ raw_lines (py "Root Cause:" ++ [10]
                       ++ py "CPK improved from 0.8 to 1.5 after fixture upgrade")) as Hin.
  { vm_compute. right. left. }
  assert (is_heading_like (U := ascii_unicode)
            (py "CPK improved from 0.8 to 1.5 after fixture upgrade") = false) as Hh.
  { reflexivity. }
  split; [exact Hin|]. split; [exact Hh|].
  exact (snippet_prefers_content (U := ascii_unicode) _ 160 None _ Hin Hh).
Defined.

(** X13.  The candidates are the non-blank lines that are not heading-like,
    or all non-blank lines when every one is heading-like; the selector
    answers with the first candidate of the highest score: every candidate
    before it scores strictly less and none after it scores more. *)
Theorem snippet_first_best `{U : Unicode} (text : str) (max_len : Z)
    (kws : option (list str)) :
  raw_lines text <> [] ->
  (forall ln, ln ∈ candidates text <->
     ln ∈ raw_lines text
     /\ (is_heading_like ln = false
         \/ forall l, l ∈ raw_lines text -> is_heading_like l = true))
  /\ exists pre snippet post,
       candidates text = pre ++ snippet :: post
       /\ (forall y, y ∈ pre -> (score kws y < score kws snippet)%Z)
       /\ (forall y, y ∈ post -> (score kws y <= score kws snippet)%Z)
       /\ extract_evidence_snippet text max_len kws =
            Some (if (max_len <? Z.of_nat (length snippet))%Z
                  then rstrip (slice_to (max_len - 3) snippet) ++ py "..."
                  else snippet).
Proof.
  intros Hne0.
  assert (nonempty (raw_lines text) = true) as Hne by by destruct (raw_lines text).
  split.
  - intros ln. unfold candidates.
    destruct (List.filter (fun ln => negb (is_heading_like ln)) (raw_lines text))
      as [|x l] eqn:E; cbn [negb nonempty].
    + split.
      * intros Hin. split; [done|]. right. intros l Hl.
        destruct (is_heading_like l) eqn:Hh; [done|].
        assert (In l (List.filter (fun ln => negb (is_heading_like ln)) (raw_lines text)))
          as H by (apply filter_In; split; [by apply list_elem_of_In|by rewrite Hh]).
        by rewrite E in H.
      * by intros [Hin _].
    + rewrite <- E. rewrite list_elem_of_In, filter_In, <- list_elem_of_In. split.
      * intros [Hin Hh]. split; [done|]. left. by destruct (is_heading_like ln).
      * intros [Hin [Hh|Hall]]; [by rewrite Hh|].
        assert (In x (List.filter (fun ln => negb (is_heading_like ln)) (raw_lines text)))
          as H by (rewrite E; by left).
        apply filter_In in H as [Hx Hxh]. apply list_elem_of_In, Hall in Hx.
        by rewrite Hx in Hxh.
  - destruct (snippet_selected text max_len kws Hne) as (snippet & Hmax & Hres).
    apply py_max_first in Hmax as (pre & post & Heq & Hpre & Hpost).
    by exists pre, snippet, post.
Qed.

Lemma snippet_first_best_witness :
  let text := py "lot 7 was screened at the customer site" ++ [10]
              ++ py "all parts on hold were sorted again" in
  raw_lines text <> []
  /\ exists pre snippet post,
       candidates (U := ascii_unicode) text = pre ++ snippet :: post
       /\ (forall y, y ∈ pre ->
             (score (U := ascii_unicode) None y < score (U := ascii_unicode) None snippet)%Z)
       /\ (forall y, y ∈ post ->
             (score (U := ascii_unicode) None y <= score (U := ascii_unicode) None snippet)%Z)
       /\ extract_evidence_snippet (U := ascii_unicode) text 160 None =
            Some (if (160 <? Z.of_nat (length snippet))%Z
                  then rstrip (slice_to (160 - 3) snippet) ++ py "..."
                  else snippet).
Proof.
  cbv zeta.
  assert (raw_lines (py "lot 7 was screened at the customer site" ++ [10]
                     ++ py "all parts on hold were sorted again") <> []) as Hne.
  { by vm_compute. }
  split; [exact Hne|].
  exact (proj2 (snippet_first_best (U := ascii_unicode) _ 160 None Hne)).
Defined.

Lemma take_prefix {A} (n : nat) (s : list A) : take n s `prefix_of` s.
Proof. exists (drop n s). by rewrite take_drop. Qed.

Lemma slice_to_prefix n s : slice_to n s `prefix_of` s.
Proof. unfold slice_to. destruct (n <? 0)%Z; apply take_prefix. Qed.

(** X14.  The evidence is a quotation: the selector answers with the
    sentinel when the text has no non-blank line, and otherwise with a line
    of the text, stripped and with its whitespace collapsed, either whole
    (when it fits [max_len]) or as a beginning of it without trailing
    whitespace, followed by an ellipsis. *)
Theorem snippet_is_quoted `{U : Unicode} (text : str) (max_len : Z)
    (kws : option (list str)) :
  exists r, extract_evidence_snippet text max_len kws = Some r
    /\ ((raw_lines text = [] /\ r = not_found)
        \/ exists l0 ln,
             l0 ∈ splitlines text /\ ln = collapse_ws (strip l0)
             /\ (((Z.of_nat (length ln) <= max_len)%Z /\ r = ln)
                 \/ ((max_len < Z.of_nat (length ln))%Z
                     /\ exists p, p `prefix_of` ln
                          /\ (forall c, last p = Some c -> isspace c = false)
                          /\ r = p ++ py "..."))).
Proof.
  destruct (snippet_cases text max_len kws) as [[E ->]|(snippet & Hin & ->)].
  - exists not_found. split; [done|]. by left.
  - eexists. split; [done|]. right.
    unfold raw_lines in Hin. apply list_elem_of_fmap in Hin as (l0 & -> & Hl0).
    apply list_elem_of_In, filter_In in Hl0 as [Hl0 _].
    exists l0, (collapse_ws (strip l0)). split; [by apply list_elem_of_In|].
    split; [done|].
    destruct (max_len <? Z.of_nat (length (collapse_ws (strip l0))))%Z eqn:E.
    + right. apply Z.ltb_lt in E. split; [done|].
      exists (rstrip (slice_to (max_len - 3) (collapse_ws (strip l0)))).
      split; [|split; [apply rstrip_last|done]].
      etrans; [apply rstrip_prefix|apply slice_to_prefix].
    + left. apply Z.ltb_ge in E. done.
Qed.

(** X15.  The evidence is one line in normal form: never empty, neither
    starting nor ending with whitespace, with no line break, tab or other
    whitespace than single spaces, and no two spaces in a row. *)
Theorem snippet_normal_form `{U : Unicode} (text : str) (max_len : Z)
    (kws : option (list str)) :
  exists r, extract_evidence_snippet text max_len kws = Some r
    /\ r <> []
    /\ (forall c, head r = Some c -> isspace c = false)
    /\ (forall c, last r = Some c -> isspace c = false)
    /\ (forall c, c ∈ r -> isspace c = true -> c = 32)
    /\ (forall c, c ∈ r -> is_linebreak c = false)
    /\ (forall a b, r <> a ++ 32 :: 32 :: b).
Proof.
  assert (exists r, extract_evidence_snippet text max_len kws = Some r
                    /\ wellspaced true r = true) as (r & Hr & Hw).
  { destruct (snippet_cases text max_len kws) as [[E ->]|(snippet & Hin & ->)].
    - by exists not_found.
    - eexists. split; [done|].
      assert (wellspaced true snippet = true) as Hs.
      { pose proof (raw_lines_nonblank _ _ Hin) as [Hne _].
        unfold raw_lines in Hin. apply list_elem_of_fmap in Hin as (l0 & -> & _).
        by apply collapse_strip_wellspaced. }
      destruct (max_len <? Z.of_nat (length snippet))%Z; [|done].
      set (q := rstrip (slice_to (max_len - 3) snippet)).
      destruct (decide (q = [])) as [->|Hq]; [done|].
      apply wellspaced_app; [|done].
      assert (q `prefix_of` snippet) as [rest Hrest].
      { etrans; [apply rstrip_prefix|apply slice_to_prefix]. }
      rewrite Hrest in Hs.
      apply (wellspaced_cut true q rest Hs Hq). apply rstrip_last. }
  exists r. split; [done|].
  split; [by destruct r|]. split; [intros c; by apply wellspaced_head|].
  split; [intros c; by apply (wellspaced_last true)|].
  split; [intros c; by apply (wellspaced_spaces true)|].
  split; [intros c; by apply (wellspaced_no_linebreak true)|].
  intros a b. by apply (wellspaced_no_double true).
Qed.

(** X16.  The score of a line lies between 0 and 16, and between 0 and 8
    when no preferred keyword is given: at most 8 for keywords, 3 for a
    digit, 2 for a unit, 2 for an action verb and 1 for length. *)
Theorem score_bounds `{U : Unicode} (kws : option (list str)) (line : str) :
  (0 <= score kws line <= 16)%Z
  /\ (0 <= score None line <= 8)%Z
  /\ (score None line <= score kws line)%Z.
Proof.
  unfold score. cbv zeta.
  destruct kws as [[|kw kws]|].
  - repeat match goal with |- context [if ?c then _ else _] => destruct c end; lia.
  - assert (0 <= hits (kw :: kws) line)%Z by (unfold hits; lia).
    destruct (hits (kw :: kws) line =? 0)%Z;
      repeat match goal with |- context [if ?c then _ else _] => destruct c end; lia.
  - repeat match goal with |- context [if ?c then _ else _] => destruct c end; lia.
Qed.

(** ** Flattening of the document *)

Lemma norm_wellspaced s : nonempty (norm s) = true -> wellspaced true (norm s) = true.
Proof. apply collapse_strip_wellspaced. Qed.

Lemma fold_append_flat {A B} (f : A -> list B) (l : list A) (init : list B) :
  fold_left (fun acc x => acc ++ f x) l init = init ++ concat (map f l).
Proof.
  revert init. induction l as [|x l IH]; intros init; simpl.
  - by rewrite app_nil_r.
  - by rewrite IH, app_assoc.
Qed.

Lemma elem_of_concat {A} (x : A) (ls : list (list A)) :
  x ∈ concat ls -> exists l, x ∈ l /\ l ∈ ls.
Proof.
  rewrite list_elem_of_In, in_concat. intros (l & Hl & Hx).
  exists l. by rewrite !list_elem_of_In.
Qed.

Lemma join_bar_wellspaced (cells : list str) :
  cells <> [] ->
  Forall (fun c => wellspaced true c = true) cells ->
  wellspaced true (str_join (py " | ") cells) = true.
Proof.
  intros Hne Hall. induction Hall as [|c cells Hc Hall IH]; [done|].
  destruct cells as [|c' cells]; [done|].
  change (str_join (py " | ") (c :: c' :: cells))
    with (c ++ py " | " ++ str_join (py " | ") (c' :: cells)).
  apply wellspaced_app; [done|].
  change (py " | ") with [32; 124; 32]. simpl. by apply IH.
Qed.

Lemma row_parts_wellspaced cells p :
  p ∈ row_parts cells -> wellspaced true p = true.
Proof.
  unfold row_parts. cbv zeta.
  destruct (existsb nonempty (map norm cells)) eqn:E; cbn [negb];
    [|by intros ?%elem_of_nil].
  intros ->%list_elem_of_singleton. apply join_bar_wellspaced.
  - apply existsb_exists in E as (c & Hin & Hc).
    assert (In c (List.filter nonempty (map norm cells))) as H
      by (apply filter_In; by split).
    intros E'. by rewrite E' in H.
  - apply Forall_forall. intros c Hin.
    apply list_elem_of_In, filter_In in Hin as [Hin Hc].
    apply in_map_iff in Hin as (s & <- & _). by apply norm_wellspaced.
Qed.

Lemma block_parts_wellspaced child p :
  p ∈ block_parts child -> wellspaced true p = true.
Proof.
  destruct child as [text|rows|]; simpl.
  - destruct (nonempty (norm text)) eqn:E; [|by intros ?%elem_of_nil].
    intros ->%list_elem_of_singleton. by apply norm_wellspaced.
  - rewrite fold_append_flat. simpl.
    intros (ps & Hp & Hps)%elem_of_concat.
    apply list_elem_of_fmap in Hps as (row & -> & _).
    by eapply row_parts_wellspaced.
  - by intros ?%elem_of_nil.
Qed.

Lemma flatten_body_wellspaced body p :
  p ∈ flatten_body body -> wellspaced true p = true.
Proof.
  unfold flatten_body. rewrite fold_append_flat. simpl.
  intros (ps & Hp & Hps)%elem_of_concat.
  apply list_elem_of_fmap in Hps as (child & -> & _).
  by eapply block_parts_wellspaced.
Qed.

Lemma splitlines_one b p :
  p <> [] -> (forall c, c ∈ p -> is_linebreak c = false) ->
  splitlines_from b p = [p].
Proof.
  revert b. induction p as [|c p IH]; intros b Hne Hp; [done|].
  assert (is_linebreak c = false) as Hc by (apply Hp; by left).
  assert ((c =? 10) = false) as Hlf.
  { destruct (N.eqb_spec c 10) as [->|]; [done|done]. }
  simpl. rewrite Hlf, andb_false_r, Hc.
  destruct p as [|c' p]; [done|].
  rewrite (IH false); [done|done|]. intros x Hx. apply Hp. by right.
Qed.

Lemma splitlines_first b p s :
  p <> [] -> (forall c, c ∈ p -> is_linebreak c = false) ->
  splitlines_from b (p ++ 10 :: s) = p :: splitlines_from false s.
Proof.
  revert b. induction p as [|c p IH]; intros b Hne Hp; [done|].
  assert (is_linebreak c = false) as Hc by (apply Hp; by left).
  assert ((c =? 10) = false) as Hlf.
  { destruct (N.eqb_spec c 10) as [->|]; [done|done]. }
  cbn [app splitlines_from]. rewrite Hlf, andb_false_r, Hc.
  destruct p as [|c' p]; [done|].
  rewrite (IH false); [done|done|]. intros x Hx. apply Hp. by right.
Qed.

Lemma splitlines_join parts :
  Forall (fun p => wellspaced true p = true) parts ->
  splitlines (str_join [10] parts) = parts.
Proof.
  unfold splitlines. induction 1 as [|p parts Hp Hall IH]; [done|].
  assert (p <> []) as Hne by (by destruct p).
  assert (forall c, c ∈ p -> is_linebreak c = false) as Hlb.
  { intros c. by apply (wellspaced_no_linebreak true). }
  destruct parts as [|q parts].
  - by apply splitlines_one.
  - change (str_join [10] (p :: q :: parts)) with (p ++ 10 :: str_join [10] (q :: parts)).
    by rewrite splitlines_first, IH.
Qed.

Lemma normal_lines_kept (lines : list str) :
  Forall (fun p => wellspaced true p = true) lines ->
  map (fun ln => collapse_ws (strip ln))
      (List.filter (fun ln => nonempty (strip ln)) lines) = lines.
Proof.
  induction 1 as [|p lines Hp Hall IH]; [done|].
  destruct (wellspaced_fixed p Hp) as (Hs & Hc & Hn).
  simpl. rewrite Hs, Hn. simpl. by rewrite Hs, Hc, IH.
Qed.


(** X18.  The flattened text keeps the parts apart: split into lines again
    it gives back exactly the list of parts, and the non-blank normalised
    lines that the evidence selector works on are the same list. *)
Theorem flatten_lines_roundtrip (body : list block) :
  splitlines (full_text_of body) = flatten_body body
  /\ raw_lines (full_text_of body) = flatten_body body
  /\ exists sections, read_8d_report body = Some (full_text_of body, sections).
Proof.
  assert (Forall (fun p => wellspaced true p = true) (flatten_body body)) as Hall.
  { apply Forall_forall. intros p Hp.
    by apply (flatten_body_wellspaced body). }
  assert (splitlines (full_text_of body) = flatten_body body) as Hsplit.
  { by apply splitlines_join. }
  split; [done|]. split.
  - unfold raw_lines. rewrite Hsplit. by apply normal_lines_kept.
  - unfold read_8d_report. cbv zeta.
    destruct (extract_8d_sections_spec (full_text_of body)) as (sections & -> & _).
    by exists sections.
Qed.

(** ** The audit packet *)

Lemma review_8d_report_some `{U : Unicode} (full_text : str) :
  exists v, review_8d_report full_text = Some v.
Proof. rewrite review_8d_report_unfold, verdict_of_six. by eexists. Qed.

(** X19.  The audit packet is always produced; it carries the gate result of
    the review unchanged, and as source text exactly the sections D3 to D7
    as the segmenter found them, never D1, D2 or D8. *)
Theorem audit_packet_sections `{U : Unicode} (body : list block) :
  exists p v,
    prepare_logic_audit_packet body = Some p
    /\ review_8d_report (full_text_of body) = Some v
    /\ gate_overall_passed p = overall_passed v
    /\ gate_failed_sections p = failed_sections v
    /\ gate_reviews p = reviews v
    /\ dom (source_sections p) = {[ "D3"; "D4"; "D5"; "D6"; "D7" ]}%string
    /\ (forall pattern k, (pattern, k) ∈ patterns -> k ∈ critical_sections ->
          source_sections p !! k = Some (section_text pattern (full_text_of body))).
Proof.
  unfold prepare_logic_audit_packet, read_8d_report. cbv zeta.
  destruct (extract_8d_sections_spec (full_text_of body)) as (sections & -> & _ & Hval).
  destruct (review_8d_report_some (full_text_of body)) as (v & Hv).
  rewrite Hv. cbn [mbind option_bind snd].
  eexists _, v. split; [reflexivity|]. split; [done|].
  cbn [gate_overall_passed gate_failed_sections gate_reviews source_sections].
  split; [done|]. split; [done|]. split; [done|]. split.
  - unfold pick_sections. rewrite dom_list_to_map_L. simpl. compute_done.
  - intros pattern k He Hk. pose proof (Hval _ _ He) as Hs.
    unfold critical_sections in Hk.
    repeat (apply elem_of_cons in Hk as [->|Hk];
            [etrans; [|exact (f_equal (fun o => Some (default [] o)) Hs)];
             reflexivity|]).
    by apply elem_of_nil in Hk.
Qed.

(** ** Appending the logic audit *)

Lemma split_once_spec sep s :
  sep <> [] ->
  (exists head tail,
     split_once sep s = [head; tail] /\ s = head ++ sep ++ tail
     /\ contains sep s = true
     /\ forall h' t', s = h' ++ sep ++ t' -> (length head <= length h')%nat)
  \/ (split_once sep s = [s] /\ contains sep s = false).
Proof.
  intros Hsep. induction s as [|c t IH].
  - right. destruct sep; [done|]. done.
  - cbn [split_once contains].
    destruct (startswith (c :: t) sep) eqn:E.
    + left. apply startswith_spec in E as [post E].
      exists [], (drop (length sep) (c :: t)). split; [done|].
      split; [|split; [done|intros; simpl; lia]].
      rewrite E at 1. by rewrite E, drop_app_length.
    + destruct IH as [(head & tail & -> & Ht & Hc & Hfirst)|[-> Hc]].
      * left. exists (c :: head), tail. split; [done|]. split; [by rewrite Ht|].
        split; [by rewrite Hc|].
        intros [|c' h'] t' Hs.
        -- exfalso. simpl in Hs.
           assert (startswith (c :: t) sep = true) as Hst
             by (apply startswith_spec; by exists t').
           congruence.
        -- injection Hs as -> Hs. simpl. specialize (Hfirst h' t' Hs). lia.
      * right. split; [|by rewrite Hc]. by destruct t as [|? [|? ?]].
Qed.

Lemma insert_marker_nonempty : insert_marker <> [].
Proof. done. Qed.

Lemma audit_block_nonempty md :
  audit_given md = true -> strip (default [] md) <> [].
Proof.
  destruct md as [md|]; simpl; [|done].
  intros [_ H]%andb_true_iff. by destruct (strip md).
Qed.

(** X20.  Appending the logic audit never raises.  Without an audit text
    (none, empty or blank) the report is left as it is and not flagged.
    With one, the report is flagged and holds the audit, stripped: put
    before the first occurrence of the footer marker when the report has
    one, after a rule that follows what came before without its trailing
    whitespace, and with the marker and what followed it kept behind; or put
    at the end, after the same rule, when the report has no marker. *)
Theorem append_logic_audit_spec (report : str) (logic_review_md : option str) :
  let rule := [10; 10] ++ py "---" ++ [10; 10] in
  let block := strip (default [] logic_review_md) in
  exists out included,
    append_logic_audit report logic_review_md = Some (out, included)
    /\ included = audit_given logic_review_md
    /\ (audit_given logic_review_md = false -> out = report)
    /\ (audit_given logic_review_md = true ->
          block <> [] /\ substring block out
          /\ ((exists head tail,
                 report = head ++ insert_marker ++ tail
                 /\ (forall h' t', report = h' ++ insert_marker ++ t' ->
                       (length head <= length h')%nat)
                 /\ out = rstrip head ++ rule ++ block ++ [10; 10] ++ insert_marker
                            ++ lstrip_newlines tail)
              \/ (~ substring insert_marker report
                  /\ out = rstrip report ++ rule ++ block ++ [10]))).
Proof.
  cbv zeta. unfold append_logic_audit.
  destruct (audit_given logic_review_md) eqn:Ha.
  2:{ exists report, false. by repeat split. }
  pose proof (audit_block_nonempty _ Ha) as Hblock.
  destruct (split_once_spec insert_marker report insert_marker_nonempty)
    as [(head & tail & -> & Hrep & -> & Hfirst)|[-> Hc]].
  - eexists _, true. split; [reflexivity|]. split; [done|]. split; [done|].
    intros _. split; [done|]. split.
    + exists (rstrip head ++ ([10; 10] ++ py "---" ++ [10; 10])),
        ([10; 10] ++ insert_marker ++ lstrip_newlines tail).
      apply app_assoc.
    + left. by exists head, tail.
  - rewrite Hc. eexists _, true. split; [reflexivity|]. split; [done|]. split; [done|].
    intros _. split; [done|]. split.
    + exists (rstrip report ++ ([10; 10] ++ py "---" ++ [10; 10])), [10].
      apply app_assoc.
    + right. split; [|done]. intros Hsub%contains_spec. congruence.
Qed.
